(** * The sports-leagues store: catalogue filtering and the badge cache

    A shallow embedding of the Pinia store [useSportsLeaguesStore]
    (state, the two computed getters [availableSports] and
    [filteredLeagues], and the two asynchronous actions [fetchLeagues] and
    [fetchBadge]) together with the [fetchFromAPI] wrapper of [useApi]
    that both actions go through.  Around the store it covers the code
    that uses it: the index page and the league card with its badge
    modal; and beside it the composables [useLeagueBadge] and
    [useLeagues].

    Modelling conventions.
    - A JavaScript string is a [string].  What the code does with the
      characters of a string alone is written out: equality, emptiness
      and [includes].  What needs the Unicode tables is taken from the
      class [Js.Builtins]: [toLowerCase], [trim] and the code units that
      the default comparison of [sort] goes by.  Every theorem holds for
      every instance of the class; [Js.ascii_builtins] is the instance that
      agrees with JavaScript on ASCII strings, and the closed examples
      are evaluated in it, on ASCII strings.
    - A field that the JSON payload may leave [null] or [undefined] is an
      [option]; [None] stands for both, since the store only ever tests
      such a field for truthiness or reads it through [?.].  Fields of
      another JSON type are the matter of the module [Raw].
    - [badgeCache] (a plain object used as a dictionary, persisted by
      [useLocalStorage]) is a [gmap string string] of its own
      properties; reading a key that it does not own falls through to
      the members it inherits, which [Js.get] gives back.
    - An asynchronous action is a function from the store to the store
      after the returned promise has settled, paired with the way it
      settled.  The remote API is an argument: the way the request
      settles. *)

From Stdlib Require Import Ascii.
From stdpp Require Import gmap strings list sorting.

(** ** JavaScript values and primitives *)

Module Js.

(** [t] is an initial segment of [s]. *)
Fixpoint startsWith (s t : string) {struct t} : bool :=
  match t, s with
  | EmptyString, _ => true
  | String _ _, EmptyString => false
  | String ct t', String cs s' => (Ascii.eqb ct cs && startsWith s' t')%bool
  end.

(** [s.includes(t)] *)
Fixpoint includes (s t : string) : bool :=
  (startsWith s t ||
   match s with
   | EmptyString => false
   | String _ s' => includes s' t
   end)%bool.

(** Truthiness of a string: every string but the empty one. *)
Definition truthy_str (s : string) : bool := negb (String.eqb s "").

(** Truthiness of a value of type [string | null | undefined]. *)
Definition truthy (v : option string) : bool :=
  match v with
  | Some s => truthy_str s
  | None => false
  end.

(** Truthiness of a value of type [boolean | undefined], which is what
    an optional chain ending in [.includes(term)] evaluates to. *)
Definition truthy_bool (v : option bool) : bool :=
  match v with
  | Some b => b
  | None => false
  end.

(** [a || b] on such values: [a] when it is truthy, else [b]. *)
Definition or_else (a b : option bool) : option bool :=
  if truthy_bool a then a else b.

(** [set.add(x)] on a [Set<string>], kept as its elements in insertion
    order. *)
Definition set_add (x : string) (elts : list string) : list string :=
  if bool_decide (x ∈ elts) then elts else elts ++ [x].

(** The lexicographic order on sequences of code units, a proper
    prefix coming first: the order in which the default comparison of
    [sort] puts two strings. *)
Fixpoint lex_leb (a b : list N) : bool :=
  match a, b with
  | [], _ => true
  | _ :: _, [] => false
  | x :: a', y :: b' =>
      match N.compare x y with
      | Lt => true
      | Eq => lex_leb a' b'
      | Gt => false
      end
  end.

(** What this development takes from the JavaScript engine and its
    Unicode tables, with the few facts about it that the proofs use.
    - [toLowerCase s] is [s.toLowerCase()] and [trim s] is [s.trim()]:
      both leave the empty string empty, and case mapping neither makes
      nor removes white space, so that two strings with the same lower
      case are blank together.
    - [units s] is the sequence of the UTF-16 code units of [s]; two
      strings with the same code units are the same string.
    - [inherited key] tells whether an object that has no property
      [key] of its own still answers a read of [key], with a member
      it inherits from its prototype (["constructor"], ["toString"],
      ["__proto__"] and so on, for a plain object).  Such a member is a
      function or an object, hence truthy. *)
Class Builtins : Type := {
  toLowerCase : string -> string;
  trim : string -> string;
  units : string -> list N;
  inherited : string -> bool;
  toLowerCase_empty : toLowerCase "" = "";
  trim_empty : trim "" = "";
  toLowerCase_blank :
    forall s s', toLowerCase s = toLowerCase s' -> trim s = "" -> trim s' = "";
  units_inj : forall s t, units s = units t -> s = t
}.

(** The order of the default comparison of [sort] on strings. *)
Definition code_le `{Builtins} (s t : string) : Prop :=
  Is_true (lex_leb (units s) (units t)).

#[global] Instance code_le_dec `{Builtins} : RelDecision code_le.
Proof. intros s t. unfold code_le. apply _. Defined.

(** [array.sort()] on strings, with the default comparison. *)
Definition sort `{Builtins} (l : list string) : list string := merge_sort code_le l.

(** A value that [fetchBadge] can come by: a string, or a member that
    the cache object inherits, named by its key. *)
Inductive value : Type :=
| Str (s : string)
| Member (key : string).

(** Truthiness of such a value, or of [undefined]. *)
Definition truthy_value (v : option value) : bool :=
  match v with
  | Some (Str s) => truthy_str s
  | Some (Member _) => true
  | None => false
  end.

(** [obj[key]] on a plain object whose own properties are strings: the
    own property when there is one, else the inherited member when
    there is one, else [undefined]. *)
Definition get `{Builtins} (obj : gmap string string) (key : string) : option value :=
  match obj !! key with
  | Some s => Some (Str s)
  | None => if inherited key then Some (Member key) else None
  end.

(** A value that can be thrown, or be the reason of a rejection: an
    object for which [instanceof Error] holds, with its [name] and
    [message], or any other value. *)
Inductive thrown : Type :=
| ErrorObject (name message : string)
| OtherValue (repr : string).

(** [new Error(message)] *)
Definition new_Error (message : string) : thrown := ErrorObject "Error" message.

(** How a promise settles. *)
Inductive settled (A : Type) : Type :=
| Fulfilled (value : A)
| Rejected (reason : thrown).
Global Arguments Fulfilled {A} value.
Global Arguments Rejected {A} reason.

(** How a synchronous call completes: with a value, or by throwing. *)
Inductive completion (A : Type) : Type :=
| Normal (value : A)
| Abrupt (err : thrown).
Global Arguments Normal {A} value.
Global Arguments Abrupt {A} err.

(** [array.filter(callback)] for a callback that may throw: the
    elements are tested in order, and the first throw ends the call. *)
Fixpoint filter {A} (callback : A -> completion bool) (l : list A) : completion (list A) :=
  match l with
  | [] => Normal []
  | x :: l' =>
      match callback x with
      | Abrupt err => Abrupt err
      | Normal keep =>
          match filter callback l' with
          | Abrupt err => Abrupt err
          | Normal kept => Normal (if keep then x :: kept else kept)
          end
      end
  end.

(** A field of a record of the JSON payload as it arrives: missing or
    [null]; a string; or a value of another JSON type (a number, a
    boolean, an array, an object), which has no string methods. *)
Inductive field : Type :=
| Absent
| Text (s : string)
| Malformed (repr : string).

(** *** The builtins on ASCII strings *)

(** [c] lies in [lo .. hi], compared as code units. *)
Definition in_range (lo hi c : ascii) : bool :=
  (N.leb (N_of_ascii lo) (N_of_ascii c) && N.leb (N_of_ascii c) (N_of_ascii hi))%bool.

Definition lower_char (c : ascii) : ascii :=
  if in_range "A"%char "Z"%char c then ascii_of_N (N_of_ascii c + 32) else c.

(** [s.toLowerCase()] for a string of ASCII characters. *)
Fixpoint ascii_toLowerCase (s : string) : string :=
  match s with
  | EmptyString => EmptyString
  | String c s' => String (lower_char c) (ascii_toLowerCase s')
  end.

(** The ASCII white space removed by [trim]: TAB, LF, VT, FF, CR and
    SPACE. *)
Definition is_space (c : ascii) : bool :=
  (in_range "009"%char "013"%char c || Ascii.eqb c " "%char)%bool.

Fixpoint trimStart (s : string) : string :=
  match s with
  | EmptyString => EmptyString
  | String c s' => if is_space c then trimStart s' else s
  end.

Fixpoint trimEnd (s : string) : string :=
  match s with
  | EmptyString => EmptyString
  | String c s' =>
      match trimEnd s' with
      | EmptyString => if is_space c then EmptyString else String c EmptyString
      | r => String c r
      end
  end.

(** [s.trim()] for a string of ASCII characters. *)
Definition ascii_trim (s : string) : string := trimEnd (trimStart s).

(** Every character of [s] is ASCII white space. *)
Fixpoint blank (s : string) : bool :=
  match s with
  | EmptyString => true
  | String c s' => (is_space c && blank s')%bool
  end.

(** The code units of a string of ASCII characters. *)
Definition ascii_units (s : string) : list N :=
  N_of_ascii <$> String.list_ascii_of_string s.

(** The names of the members of [Object.prototype]. *)
Definition Object_prototype : list string :=
  [ "constructor"; "__defineGetter__"; "__defineSetter__"; "hasOwnProperty";
    "__lookupGetter__"; "__lookupSetter__"; "isPrototypeOf";
    "propertyIsEnumerable"; "toString"; "valueOf"; "__proto__"; "toLocaleString" ].

(** The builtins as they are on ASCII strings and plain objects. *)
#[global] Instance ascii_builtins : Builtins.
Proof.
  refine {| toLowerCase := ascii_toLowerCase;
            trim := ascii_trim;
            units := ascii_units;
            inherited := fun key => bool_decide (key ∈ Object_prototype) |}.
  - reflexivity.
  - reflexivity.
  - assert (forall s, trimEnd s = "" <-> blank s = true) as Hend.
    { induction s as [|c s IH]; simpl; [done|].
      destruct (trimEnd s) as [|x r].
      - destruct (is_space c); simpl; [tauto | split; discriminate].
      - split; [discriminate|]. intros [_ Hs]%andb_true_iff.
        apply IH in Hs. discriminate. }
    assert (forall s, blank (trimStart s) = blank s) as Hkeep.
    { induction s as [|c s IH]; simpl; [done|].
      destruct (is_space c) eqn:Hc; simpl; [done | by rewrite Hc]. }
    assert (forall s, blank (ascii_toLowerCase s) = blank s) as Hlower.
    { induction s as [|c s IH]; simpl; [done|]. rewrite IH. f_equal.
      destruct c as [[] [] [] [] [] [] [] []]; reflexivity. }
    intros s s' Hsame Hs. unfold ascii_trim in *.
    apply Hend. rewrite Hkeep, <- Hlower, <- Hsame, Hlower, <- Hkeep.
    by apply Hend.
  - intros s t Hunits. unfold ascii_units in Hunits.
    rewrite <- (String.string_of_list_ascii_of_string s),
      <- (String.string_of_list_ascii_of_string t).
    f_equal. revert Hunits.
    generalize (String.list_ascii_of_string s) (String.list_ascii_of_string t).
    intros l. induction l as [|x l IH]; intros [|y l'] Heq; simplify_eq/=; [done|].
    f_equal; [|by apply IH].
    rewrite <- (ascii_N_embedding x), <- (ascii_N_embedding y). congruence.
Defined.

End Js.

(** ** The types of [thesportsdb.ts] *)

Module Api.

Record League : Type := {
  idLeague : string;
  strLeague : option string;
  strSport : option string;
  strLeagueAlternate : option string
}.

Record LeaguesResponse : Type := { leagues : option (list League) }.

Record Season : Type := {
  strSeason : string;
  strBadge : option string
}.

Record SeasonsWithBadgeResponse : Type := { seasons : option (list Season) }.

Global Instance League_eq_dec : EqDecision League.
Proof. solve_decision. Defined.

Global Instance Season_eq_dec : EqDecision Season.
Proof. solve_decision. Defined.

End Api.

Export Api (League, Season, idLeague, strLeague, strSport, strLeagueAlternate,
            strSeason, strBadge).

(** ** The store *)

(** What [toast.add] is given. *)
Record Toast : Type := {
  title : string;
  description : string;
  color : string
}.

(** One call of [$fetch]: the endpoint under the base URL and the query
    parameters. *)
Record Request : Type := {
  endpoint : string;
  params : list (string * string)
}.

(** The refs of [useSportsLeaguesStore], followed by what its actions do
    to the world around it: the toasts shown, the lines written with
    [console.error], and the requests sent. *)
Record Store : Type := {
  leagues : list League;
  loading : bool;
  error : option string;
  searchTerm : string;
  selectedSport : option string;
  badgeCache : gmap string string;
  toasts : list Toast;
  console : list (string * Js.thrown);
  requests : list Request
}.

(** *** Computed getters *)

(** The callback of [leagues.value.forEach] in [availableSports]:
    [if (league.strSport) { sports.add(league.strSport) }]. *)
Definition addSport (sports : list string) (league : League) : list string :=
  match strSport league with
  | Some sport => if Js.truthy_str sport then Js.set_add sport sports else sports
  | None => sports
  end.

(** [availableSports]: the truthy [strSport] values, collected in a
    [Set] by one pass over [leagues], then sorted. *)
Definition availableSports `{Js.Builtins} (st : Store) : list string :=
  let sports := foldl addSport [] (leagues st) in
  Js.sort sports.

(** The callback of the search filter:
    [league.strLeague?.toLowerCase().includes(term) ||
     league.strLeagueAlternate?.toLowerCase().includes(term)]. *)
Definition matchesTerm `{Js.Builtins} (term : string) (league : League) : bool :=
  Js.truthy_bool
    (Js.or_else
       ((fun name => Js.includes (Js.toLowerCase name) term) <$> strLeague league)
       ((fun name => Js.includes (Js.toLowerCase name) term) <$> strLeagueAlternate league)).

(** The callback of the sport filter:
    [league.strSport === selectedSport.value]; it only runs when
    [selectedSport.value] is a non-empty string. *)
Definition matchesSport (selected : option string) (league : League) : bool :=
  bool_decide (strSport league = selected).

(** [filteredLeagues] *)
Definition filteredLeagues `{Js.Builtins} (st : Store) : list League :=
  let filtered := leagues st in
  let filtered :=
    if Js.truthy_str (Js.trim (searchTerm st)) then
      let term := Js.toLowerCase (searchTerm st) in
      List.filter (matchesTerm term) filtered
    else filtered in
  let filtered :=
    if Js.truthy (selectedSport st) then
      List.filter (matchesSport (selectedSport st)) filtered
    else filtered in
  filtered.

(** *** Asynchronous actions

    An action takes the store to the store after its promise has
    settled, and to the way the promise settled. *)

Definition action (A : Type) : Type := Store -> Store * Js.settled A.

Definition fulfil {A} (a : A) : action A := fun st => (st, Js.Fulfilled a).

Definition throw {A} (err : Js.thrown) : action A := fun st => (st, Js.Rejected err).

Definition bind {A B} (m : action A) (k : A -> action B) : action B :=
  fun st =>
    match m st with
    | (st', Js.Fulfilled a) => k a st'
    | (st', Js.Rejected err) => (st', Js.Rejected err)
    end.

#[global] Instance action_ret : MRet action := @fulfil.

#[global] Instance action_bind : MBind action := fun A B k m => bind m k.

(** [try { body } catch (err) { handler }] *)
Definition try_catch {A} (body : action A) (handler : Js.thrown -> action A) : action A :=
  fun st =>
    match body st with
    | (st', Js.Fulfilled a) => (st', Js.Fulfilled a)
    | (st', Js.Rejected err) => handler err st'
    end.

(** [try { body } finally { finalizer }], for a finalizer that neither
    returns nor throws on its own account: the outcome of [body] stands,
    unless the finalizer itself fails. *)
Definition try_finally {A} (body : action A) (finalizer : action unit) : action A :=
  fun st =>
    match body st with
    | (st', outcome) =>
        match finalizer st' with
        | (st'', Js.Fulfilled _) => (st'', outcome)
        | (st'', Js.Rejected err) => (st'', Js.Rejected err)
        end
    end.

(** Assignments to the refs, and the calls that reach outside. *)

Definition set_leagues (v : list League) : action unit := fun st =>
  ({| leagues := v; loading := loading st; error := error st;
      searchTerm := searchTerm st; selectedSport := selectedSport st;
      badgeCache := badgeCache st; toasts := toasts st;
      console := console st; requests := requests st |}, Js.Fulfilled tt).

Definition set_loading (v : bool) : action unit := fun st =>
  ({| leagues := leagues st; loading := v; error := error st;
      searchTerm := searchTerm st; selectedSport := selectedSport st;
      badgeCache := badgeCache st; toasts := toasts st;
      console := console st; requests := requests st |}, Js.Fulfilled tt).

Definition set_error (v : option string) : action unit := fun st =>
  ({| leagues := leagues st; loading := loading st; error := v;
      searchTerm := searchTerm st; selectedSport := selectedSport st;
      badgeCache := badgeCache st; toasts := toasts st;
      console := console st; requests := requests st |}, Js.Fulfilled tt).

(** [badgeCache.value[key] = v] *)
Definition badgeCache_set (key v : string) : action unit := fun st =>
  ({| leagues := leagues st; loading := loading st; error := error st;
      searchTerm := searchTerm st; selectedSport := selectedSport st;
      badgeCache := <[key := v]> (badgeCache st); toasts := toasts st;
      console := console st; requests := requests st |}, Js.Fulfilled tt).

(** [badgeCache.value[key]] *)
Definition badgeCache_get `{Js.Builtins} (key : string) : action (option Js.value) := fun st =>
  (st, Js.Fulfilled (Js.get (badgeCache st) key)).

(** [useToast().add(t)] *)
Definition toast_add (t : Toast) : action unit := fun st =>
  ({| leagues := leagues st; loading := loading st; error := error st;
      searchTerm := searchTerm st; selectedSport := selectedSport st;
      badgeCache := badgeCache st; toasts := toasts st ++ [t];
      console := console st; requests := requests st |}, Js.Fulfilled tt).

(** [console.error(label, err)] *)
Definition console_error (label : string) (err : Js.thrown) : action unit := fun st =>
  ({| leagues := leagues st; loading := loading st; error := error st;
      searchTerm := searchTerm st; selectedSport := selectedSport st;
      badgeCache := badgeCache st; toasts := toasts st;
      console := console st ++ [(label, err)]; requests := requests st |}, Js.Fulfilled tt).

(** [$fetch(url, { params })]: the request goes out and the promise
    settles the way the remote side decides, which is [net]. *)
Definition dollar_fetch {T} (net : Js.settled T) (req : Request) : action T := fun st =>
  ({| leagues := leagues st; loading := loading st; error := error st;
      searchTerm := searchTerm st; selectedSport := selectedSport st;
      badgeCache := badgeCache st; toasts := toasts st;
      console := console st; requests := requests st ++ [req] |}, net).

(** [useApi().fetchFromAPI(endpoint, params)] *)
Definition fetchFromAPI {T} (net : Js.settled T) (endpoint : string)
    (params : list (string * string)) : action T :=
  try_catch
    (dollar_fetch net {| endpoint := endpoint; params := params |})
    (fun error =>
       console_error ("TheSportsDB API Error [" +:+ endpoint +:+ "]:") error ;;
       throw error).

(** [err instanceof Error ? err.message : fallback] *)
Definition message_or (fallback : string) (err : Js.thrown) : string :=
  match err with
  | Js.ErrorObject _ message => message
  | Js.OtherValue _ => fallback
  end.

(** The rate-limit check shared by both [catch] blocks. *)
Definition toast_if_rate_limited (errorMessage description : string) : action unit :=
  if Js.includes errorMessage "429" then
    toast_add {| title := "Rate limit exceeded";
                 description := description;
                 color := "warning" |}
  else fulfil tt.

(** [fetchLeagues], with [net] the way the request for
    [all_leagues.php] settles. *)
Definition fetchLeagues (net : Js.settled (option Api.LeaguesResponse)) : action unit :=
  set_loading true ;;
  set_error None ;;
  try_finally
    (try_catch
       (response ← fetchFromAPI net "all_leagues.php" [] ;
        match response ≫= Api.leagues with
        | Some received => set_leagues received
        | None => set_leagues []
        end)
       (fun err =>
          let errorMessage := message_or "Failed to fetch leagues" err in
          set_error (Some errorMessage) ;;
          console_error "Error fetching leagues:" err ;;
          toast_if_rate_limited errorMessage "Please wait a moment before trying again"))
    (set_loading false).

(** [fetchBadge], with [fetcher] giving the way the request for the
    seasons of a league settles. *)
Definition fetchBadge `{Js.Builtins}
    (fetcher : string -> Js.settled (option Api.SeasonsWithBadgeResponse))
    (leagueId : string) : action (option Js.value) :=
  cached ← badgeCache_get leagueId ;
  if Js.truthy_value cached then fulfil cached
  else
    try_catch
      (response ← fetchFromAPI (fetcher leagueId) "search_all_seasons.php"
                                [("badge", "1"); ("id", leagueId)] ;
       match response ≫= Api.seasons with
       | Some seasons =>
           if bool_decide (0 < length seasons) then
             match seasons !! (length seasons - 1) with
             | Some latestSeason =>
                 match strBadge latestSeason with
                 | Some badgeUrl =>
                     if Js.truthy_str badgeUrl then
                       badgeCache_set leagueId badgeUrl ;;
                       fulfil (Some (Js.Str badgeUrl))
                     else fulfil None
                 | None => fulfil None
                 end
             | None =>
                 throw (Js.ErrorObject "TypeError" "Cannot read properties of undefined")
             end
           else fulfil None
       | None => fulfil None
       end)
      (fun err =>
         let errorMessage := message_or "Failed to fetch badge" err in
         console_error "Error fetching badge:" err ;;
         toast_if_rate_limited errorMessage "Please wait before loading more badges" ;;
         throw (Js.new_Error errorMessage)).

(** ** The leagues as the payload has them

    The store assigns [response.leagues] as it arrives, so a field of a
    league can be a value of any JSON type.  [Raw.filteredLeagues] is
    [filteredLeagues] run on such leagues: it is here that a call on a
    field can throw. *)

Module Raw.

Record League : Type := {
  idLeague : string;
  strLeague : Js.field;
  strSport : Js.field;
  strLeagueAlternate : Js.field
}.

(** The string a field holds, if it holds one. *)
Definition text (f : Js.field) : option string :=
  match f with
  | Js.Text s => Some s
  | Js.Absent | Js.Malformed _ => None
  end.


(** [f?.toLowerCase().includes(term)]: [undefined] when the field is
    missing, a [TypeError] when it is not a string. *)
Definition nameIncludes `{Js.Builtins} (f : Js.field) (term : string)
    : Js.completion (option bool) :=
  match f with
  | Js.Absent => Js.Normal None
  | Js.Text name => Js.Normal (Some (Js.includes (Js.toLowerCase name) term))
  | Js.Malformed _ =>
      Js.Abrupt (Js.ErrorObject "TypeError" "toLowerCase is not a function")
  end.

(** The callback of the search filter; the alternate name is only
    looked at when the name does not match. *)
Definition matchesTerm `{Js.Builtins} (term : string) (league : League)
    : Js.completion bool :=
  match nameIncludes (strLeague league) term with
  | Js.Abrupt err => Js.Abrupt err
  | Js.Normal byName =>
      if Js.truthy_bool byName then Js.Normal true
      else
        match nameIncludes (strLeagueAlternate league) term with
        | Js.Abrupt err => Js.Abrupt err
        | Js.Normal byAlternate => Js.Normal (Js.truthy_bool byAlternate)
        end
  end.

(** The callback of the sport filter: [===] with a non-empty string. *)
Definition matchesSport (selected : option string) (league : League) : bool :=
  bool_decide (text (strSport league) = selected).

(** [filteredLeagues] *)
Definition filteredLeagues `{Js.Builtins} (leagues : list League)
    (searchTerm : string) (selectedSport : option string) : Js.completion (list League) :=
  match
    (if Js.truthy_str (Js.trim searchTerm) then
       Js.filter (matchesTerm (Js.toLowerCase searchTerm)) leagues
     else Js.Normal leagues)
  with
  | Js.Abrupt err => Js.Abrupt err
  | Js.Normal filtered =>
      Js.Normal
        (if Js.truthy selectedSport then
           List.filter (matchesSport selectedSport) filtered
         else filtered)
  end.


End Raw.

(** ** Around the store: [useApi], the page and the league card *)

(** [useApi().getLeagueBadge(leagueId)] *)
Definition getLeagueBadge (net : Js.settled (option Api.SeasonsWithBadgeResponse))
    (leagueId : string) : action (option Api.SeasonsWithBadgeResponse) :=
  fetchFromAPI net "search_all_seasons.php" [("badge", "1"); ("id", leagueId)].

(** The string a truthy value of type [string | null] holds; a [v-if]
    on such a value renders its branch exactly when there is one. *)
Definition shown (v : option string) : option string :=
  match v with
  | Some s => if Js.truthy_str s then Some s else None
  | None => None
  end.

(** What the index page puts under the filters: the [v-if] chain of its
    template. *)
Inductive PageBody : Type :=
| LeaguesLoadingState
| ErrorLoadingLeagues (description : string)
| LeaguesEmptyState
| LeaguesGrid (shown : list League).

Definition pageBody `{Js.Builtins} (st : Store) : PageBody :=
  if loading st then LeaguesLoadingState
  else
    match shown (error st) with
    | Some description => ErrorLoadingLeagues description
    | None =>
        if length (filteredLeagues st) =? 0 then LeaguesEmptyState
        else LeaguesGrid (filteredLeagues st)
    end.

(** [LeaguesResultsCount], rendered when [!loading && !error], with its
    [filtered-count] and [total-count]. *)
Definition resultsCount `{Js.Builtins} (st : Store) : option (nat * nat) :=
  if (negb (loading st) && negb (Js.truthy (error st)))%bool then
    Some (length (filteredLeagues st), length (leagues st))
  else None.

(** The refs of [LeagueCard.vue]. *)
Record Card : Type := {
  showModal : bool;
  badgeUrl : option Js.value;
  badgeLoading : bool;
  badgeError : option string;
  isHovered : bool
}.

(** What the other handlers of the card do while a request is
    pending: the modal may be closed ([update:open] with [false]), and
    the pointer may enter or leave the card.  They write [showModal]
    and [isHovered], and no other ref. *)
Record Meanwhile : Type := {
  closed : bool;
  hovered : option bool
}.

Definition meanwhile (m : Meanwhile) (card : Card) : Card :=
  {| showModal := if closed m then false else showModal card;
     badgeUrl := badgeUrl card;
     badgeLoading := badgeLoading card;
     badgeError := badgeError card;
     isHovered := default (isHovered card) (hovered m) |}.

(** Whether a call that took the store from [st] to [st'] went out to
    the network.  Only then is there a task between the call and its
    settling in which another handler can run: a promise that settles
    without a request is awaited within the same task. *)
Definition went_out (st st' : Store) : bool :=
  negb (length (requests st') =? length (requests st)).

(** [handleCardClick] of the card of [league]: the card and the store
    after its promise has settled, and the way it settled.  A second
    click on the card while the first is pending is left out. *)
Definition handleCardClick `{Js.Builtins}
    (fetcher : string -> Js.settled (option Api.SeasonsWithBadgeResponse))
    (league : League) (m : Meanwhile) (card : Card) (st : Store)
    : Card * Store * Js.settled unit :=
  let card :=
    {| showModal := true; badgeUrl := None; badgeLoading := true;
       badgeError := None; isHovered := isHovered card |} in
  let '(card, st, outcome) :=
    match fetchBadge fetcher (idLeague league) st with
    | (st', Js.Fulfilled url) =>
        let card := if went_out st st' then meanwhile m card else card in
        ({| showModal := showModal card; badgeUrl := url;
            badgeLoading := badgeLoading card; badgeError := badgeError card;
            isHovered := isHovered card |}, st', Js.Fulfilled tt)
    | (st', Js.Rejected err) =>
        let card := if went_out st st' then meanwhile m card else card in
        let errorMessage := message_or "Failed to load badge" err in
        ({| showModal := showModal card; badgeUrl := badgeUrl card;
            badgeLoading := badgeLoading card; badgeError := Some errorMessage;
            isHovered := isHovered card |}, st', Js.Fulfilled tt)
    end in
  ({| showModal := showModal card; badgeUrl := badgeUrl card;
      badgeLoading := false; badgeError := badgeError card;
      isHovered := isHovered card |}, st, outcome).

(** What [BadgeModal.vue] puts in its body: the [v-if] chain of its
    template over the props [loading], [error] and [badgeUrl]. *)
Inductive ModalBody : Type :=
| LoadingBadge
| FailedToLoadBadge (description : string)
| NoBadgeAvailable
| BadgeImage (src : Js.value).

Definition BadgeModal (loading : bool) (error : option string)
    (badgeUrl : option Js.value) : ModalBody :=
  if loading then LoadingBadge
  else
    match shown error with
    | Some description => FailedToLoadBadge description
    | None =>
        match badgeUrl with
        | Some src => if Js.truthy_value (Some src) then BadgeImage src else NoBadgeAvailable
        | None => NoBadgeAvailable
        end
    end.

(** The modal as [LeagueCard.vue] binds it to its refs. *)
Definition cardModal (card : Card) : ModalBody :=
  BadgeModal (badgeLoading card) (badgeError card) (badgeUrl card).

(** ** The composables beside the store

    [useLeagueBadge] and [useLeagues] do without the store: the first
    only reaches the world around it (requests and console), the second
    works on a list of leagues of its own. *)

Module UseLeagueBadge.

(** What [fetchBadge] of the composable returns. *)
Record BadgeAndSeasons : Type := {
  badge : option string;
  seasons : list Season
}.

(** [response.seasons], a property read on a response that may be
    [null]. *)
Definition seasons_of (response : option Api.SeasonsWithBadgeResponse)
    : action (option (list Season)) :=
  match response with
  | Some r => fulfil (Api.seasons r)
  | None => throw (Js.ErrorObject "TypeError" "Cannot read properties of null")
  end.

(** [useLeagueBadge().fetchBadge(leagueId)] *)
Definition fetchBadge (net : Js.settled (option Api.SeasonsWithBadgeResponse))
    (leagueId : string) : action BadgeAndSeasons :=
  try_catch
    (response ← getLeagueBadge net leagueId ;
     received ← seasons_of response ;
     let seasons := default [] received in
     let badge := (seasons !! 0) ≫= strBadge in
     fulfil {| badge := badge; seasons := seasons |})
    (fun error =>
       console_error ("Error fetching badge for league " +:+ leagueId +:+ ":") error ;;
       fulfil {| badge := None; seasons := [] |}).

(** [useLeagueBadge().getLatestSeason(leagueId)] *)
Definition getLatestSeason (net : Js.settled (option Api.SeasonsWithBadgeResponse))
    (leagueId : string) : action (option Season) :=
  try_catch
    (response ← getLeagueBadge net leagueId ;
     received ← seasons_of response ;
     fulfil (received ≫= (fun seasons => seasons !! 0)))
    (fun error =>
       console_error ("Error fetching latest season for league " +:+ leagueId +:+ ":") error ;;
       fulfil None).

End UseLeagueBadge.

Module UseLeagues.

(** [v.toLowerCase()] on a value that may be [null]. *)
Definition toLowerCase_of `{Js.Builtins} (v : option string) : Js.completion string :=
  match v with
  | Some s => Js.Normal (Js.toLowerCase s)
  | None => Js.Abrupt (Js.ErrorObject "TypeError" "Cannot read properties of null")
  end.

(** [filterBySport(sport)] over the leagues of the composable. *)
Definition filterBySport `{Js.Builtins} (leagues : list League) (sport : string)
    : Js.completion (list League) :=
  Js.filter (fun league =>
               match toLowerCase_of (strSport league) with
               | Js.Abrupt err => Js.Abrupt err
               | Js.Normal lowerSport =>
                   Js.Normal (String.eqb lowerSport (Js.toLowerCase sport))
               end)
            leagues.

(** [searchLeagues(query)] over the leagues of the composable. *)
Definition searchLeagues `{Js.Builtins} (leagues : list League) (query : string)
    : Js.completion (list League) :=
  let lowerQuery := Js.toLowerCase query in
  Js.filter (fun league =>
               match toLowerCase_of (strLeague league) with
               | Js.Abrupt err => Js.Abrupt err
               | Js.Normal lowerName =>
                   Js.Normal (Js.truthy_bool
                                (Js.or_else
                                   (Some (Js.includes lowerName lowerQuery))
                                   ((fun name => Js.includes (Js.toLowerCase name) lowerQuery)
                                      <$> strLeagueAlternate league)))
               end)
            leagues.

End UseLeagues.

(** ** Vocabulary of the specification *)

(** [t] occurs in [s] as a contiguous substring. *)
Definition substring_of (t s : string) : Prop :=
  exists before after, s = before +:+ t +:+ after.

(** [t] occurs in [s] when case is ignored. *)
Definition matches_ignoring_case `{Js.Builtins} (t s : string) : Prop :=
  substring_of (Js.toLowerCase t) (Js.toLowerCase s).

(** [t] matches the name of [L] or, when there is one, its alternate
    name. *)
Definition term_matches `{Js.Builtins} (t : string) (L : League) : Prop :=
  (exists name, strLeague L = Some name /\ matches_ignoring_case t name) \/
  (exists name, strLeagueAlternate L = Some name /\ matches_ignoring_case t name).

(** The visibility condition in the words of the specification: the
    sport filter is off or equals the sport of [L], and the trimmed term
    is empty or matches. *)
Definition spec_visible `{Js.Builtins} (t : string) (s : option string) (L : League) : Prop :=
  (s = None \/ strSport L = s) /\
  (Js.trim t = "" \/ term_matches (Js.trim t) L).

(** The visibility condition the store implements: an empty sport
    filter counts as no filter, and the term is matched as typed. *)
Definition store_visible `{Js.Builtins} (t : string) (s : option string) (L : League) : Prop :=
  (s = None \/ s = Some "" \/ strSport L = s) /\
  (Js.trim t = "" \/ term_matches t L).

(** The two filter callbacks of [filteredLeagues] with their guards, as
    one test on a league. *)
Definition visible `{Js.Builtins} (st : Store) (L : League) : bool :=
  ((negb (Js.truthy_str (Js.trim (searchTerm st))) ||
    matchesTerm (Js.toLowerCase (searchTerm st)) L) &&
   (negb (Js.truthy (selectedSport st)) || matchesSport (selectedSport st) L))%bool.

(** The sport values of the specification: non-empty, and the sport of
    some league. *)
Definition is_sport_of (ls : list League) (sport : string) : Prop :=
  sport <> "" /\ exists L, L ∈ ls /\ strSport L = Some sport.

(** Strictly ascending in the lexicographic order on code units. *)
Definition ascending `{Js.Builtins} (l : list string) : Prop :=
  StronglySorted (strict Js.code_le) l.

(** [s] and [t] are equal when case is ignored. *)
Definition same_ignoring_case `{Js.Builtins} (s t : string) : Prop :=
  Js.toLowerCase s = Js.toLowerCase t.

(** The request [fetchBadge] sends for a league. *)
Definition badge_request (leagueId : string) : Request :=
  {| endpoint := "search_all_seasons.php";
     params := [("badge", "1"); ("id", leagueId)] |}.

(** The request [fetchLeagues] sends. *)
Definition leagues_request : Request :=
  {| endpoint := "all_leagues.php"; params := [] |}.

(** The toasts of the two [catch] blocks. *)
Definition leagues_rate_limit_toast : Toast :=
  {| title := "Rate limit exceeded";
     description := "Please wait a moment before trying again";
     color := "warning" |}.

Definition badge_rate_limit_toast : Toast :=
  {| title := "Rate limit exceeded";
     description := "Please wait before loading more badges";
     color := "warning" |}.

(** A session of badge requests: [fetchBadge] called for one league
    after the other, each call with the fetcher it meets. *)
Definition fetchBadges `{Js.Builtins}
    (calls : list ((string -> Js.settled (option Api.SeasonsWithBadgeResponse)) * string))
    (st : Store) : Store :=
  foldl (fun st call => (fetchBadge call.1 call.2 st).1) st calls.

(** No entry of the badge cache holds the empty string. *)
Definition cache_clean (st : Store) : Prop :=
  forall leagueId, badgeCache st !! leagueId <> Some "".

(** Sample data. *)

Definition premier_league : League :=
  {| idLeague := "1"; strLeague := Some "English Premier League";
     strSport := Some "Soccer"; strLeagueAlternate := Some "EPL" |}.

Definition nba : League :=
  {| idLeague := "2"; strLeague := Some "NBA";
     strSport := Some "Basketball"; strLeagueAlternate := Some "" |}.

Definition nameless : League :=
  {| idLeague := "3"; strLeague := None; strSport := None; strLeagueAlternate := None |}.

Definition sample_store (t : string) (s : option string) (cache : gmap string string) : Store :=
  {| leagues := [premier_league; nba]; loading := false; error := None;
     searchTerm := t; selectedSport := s; badgeCache := cache;
     toasts := []; console := []; requests := [] |}.


Definition seasons_with_badge : Js.settled (option Api.SeasonsWithBadgeResponse) :=
  Js.Fulfilled (Some {| Api.seasons :=
    Some [ {| strSeason := "2022"; strBadge := None |};
           {| strSeason := "2023"; strBadge := Some "http://x/badge.png" |} ] |}).

Definition seasons_without_badge : Js.settled (option Api.SeasonsWithBadgeResponse) :=
  Js.Fulfilled (Some {| Api.seasons :=
    Some [ {| strSeason := "2022"; strBadge := Some "http://x/old.png" |};
           {| strSeason := "2023"; strBadge := None |} ] |}).

Definition seasons_with_empty_badge : Js.settled (option Api.SeasonsWithBadgeResponse) :=
  Js.Fulfilled (Some {| Api.seasons :=
    Some [ {| strSeason := "2023"; strBadge := Some "" |} ] |}).

Definition no_seasons : Js.settled (option Api.SeasonsWithBadgeResponse) :=
  Js.Fulfilled (Some {| Api.seasons := Some [] |}).

Definition fresh_card : Card :=
  {| showModal := false; badgeUrl := None; badgeLoading := false;
     badgeError := None; isHovered := false |}.

(** Nothing else happens on the card. *)
Definition undisturbed : Meanwhile := {| closed := false; hovered := None |}.

(** The modal is closed while the request is pending. *)
Definition closing : Meanwhile := {| closed := true; hovered := Some false |}.




(** ** Facts about the string primitives *)

Lemma startsWith_spec s t :
  Js.startsWith s t = true <-> exists after, s = t +:+ after.
Proof.
  revert s. induction t as [|ct t IH]; intros s; simpl.
  - split; [intros _; exists s; reflexivity | done].
  - destruct s as [|cs s].
    + split; [done | intros [after Hs]; discriminate].
    + rewrite andb_true_iff, Ascii.eqb_eq, IH. split.
      * intros [-> [after ->]]. by exists after.
      * intros [after Hs]. injection Hs as -> ->. eauto.
Qed.

Lemma includes_spec s t :
  Js.includes s t = true <-> substring_of t s.
Proof.
  unfold substring_of. induction s as [|c s IH]; simpl.
  - rewrite orb_false_r, startsWith_spec. split.
    + intros [after Hs]. by exists "", after.
    + intros [before [after Hs]]. destruct before; [by exists after | discriminate].
  - rewrite orb_true_iff, startsWith_spec, IH. split.
    + intros [[after Hs] | [before [after Hs]]].
      * by exists "", after.
      * exists (String c before), after. simpl. by rewrite Hs.
    + intros [before [after Hs]]. destruct before as [|c' before]; simpl in Hs.
      * left. by exists after.
      * right. injection Hs as _ Hs. by exists before, after.
Qed.

Lemma truthy_str_spec s : Js.truthy_str s = true <-> s <> "".
Proof.
  unfold Js.truthy_str. rewrite negb_true_iff. apply String.eqb_neq.
Qed.

Lemma truthy_str_false s : Js.truthy_str s = false <-> s = "".
Proof.
  unfold Js.truthy_str. by rewrite negb_false_iff, String.eqb_eq.
Qed.

Lemma truthy_spec v : Js.truthy v = true <-> exists s, v = Some s /\ s <> "".
Proof.
  destruct v as [s|]; simpl.
  - rewrite truthy_str_spec. split; [eauto | by intros [? [[= <-] ?]]].
  - split; [done | by intros [? [? _]]].
Qed.

Lemma truthy_false_spec v : Js.truthy v = false <-> v = None \/ v = Some "".
Proof.
  destruct v as [s|]; simpl.
  - rewrite truthy_str_false.
    split; [intros ->; by right | by intros [|[= ->]]].
  - split; [by left | done].
Qed.



(** *** The order of [sort] *)

Lemma lex_leb_refl (a : list N) : Js.lex_leb a a = true.
Proof. induction a as [|x a IH]; simpl; [done|]. by rewrite N.compare_refl. Qed.

Lemma lex_leb_total (a b : list N) : Js.lex_leb a b = true \/ Js.lex_leb b a = true.
Proof.
  revert b. induction a as [|x a IH]; intros [|y b]; simpl; auto.
  rewrite (N.compare_antisym x y). destruct (N.compare x y); simpl; auto.
Qed.

Lemma lex_leb_antisym (a b : list N) :
  Js.lex_leb a b = true -> Js.lex_leb b a = true -> a = b.
Proof.
  revert b. induction a as [|x a IH]; intros [|y b]; simpl; try done.
  rewrite (N.compare_antisym x y).
  destruct (N.compare x y) eqn:Hxy; simpl; try done.
  apply N.compare_eq in Hxy as ->. intros Hab Hba. f_equal. by apply IH.
Qed.

Lemma lex_leb_trans (a b c : list N) :
  Js.lex_leb a b = true -> Js.lex_leb b c = true -> Js.lex_leb a c = true.
Proof.
  revert b c. induction a as [|x a IH]; intros [|y b] [|z c]; simpl; try done.
  destruct (N.compare_spec x y) as [->|Hxy|Hxy]; [|intros _|done].
  - destruct (N.compare y z); [apply IH | done..].
  - destruct (N.compare_spec y z) as [->|Hyz|Hyz]; [|intros _|done].
    + by apply N.compare_lt_iff in Hxy as ->.
    + assert (x < z)%N as ->%N.compare_lt_iff by (by etrans). done.
Qed.

#[global] Instance code_le_po `{Js.Builtins} : PartialOrder Js.code_le.
Proof.
  unfold Js.code_le. split; [split|].
  - intros s. apply Is_true_true, lex_leb_refl.
  - intros s t u Hst%Is_true_true Htu%Is_true_true.
    apply Is_true_true. by eapply lex_leb_trans.
  - intros s t Hst%Is_true_true Hts%Is_true_true.
    by apply Js.units_inj, lex_leb_antisym.
Qed.

#[global] Instance code_le_total `{Js.Builtins} : Total Js.code_le.
Proof.
  intros s t. unfold Js.code_le.
  destruct (lex_leb_total (Js.units s) (Js.units t)) as [Hle|Hle];
    [left | right]; by apply Is_true_true.
Qed.

(** ** Facts about the getters *)

Lemma matchesTerm_spec `{Js.Builtins} t L :
  matchesTerm (Js.toLowerCase t) L = true <-> term_matches t L.
Proof.
  unfold matchesTerm, term_matches, matches_ignoring_case, Js.or_else.
  destruct (strLeague L) as [name|], (strLeagueAlternate L) as [alt|]; simpl.
  - destruct (Js.includes (Js.toLowerCase name) (Js.toLowerCase t)) eqn:Hname; simpl.
    + apply includes_spec in Hname. split; [|done].
      intros _. left. eauto.
    + rewrite includes_spec. split.
      * intros Halt. right. eauto.
      * intros [[? [[= <-] Hsub]] | [? [[= <-] Hsub]]]; [|done].
        apply includes_spec in Hsub. congruence.
  - destruct (Js.includes (Js.toLowerCase name) (Js.toLowerCase t)) eqn:Hname; simpl.
    + apply includes_spec in Hname. split; [|done].
      intros _. left. eauto.
    + split; [done|].
      intros [[? [[= <-] Hsub]] | [? [? _]]]; [|done].
      apply includes_spec in Hsub. congruence.
  - rewrite includes_spec. split.
    + intros Halt. right. eauto.
    + by intros [[? [? _]] | [? [[= <-] Hsub]]].
  - split; [done|]. by intros [[? [? _]] | [? [? _]]].
Qed.

Lemma elem_of_List_filter {A} (f : A -> bool) (l : list A) (x : A) :
  x ∈ List.filter f l <-> x ∈ l /\ f x = true.
Proof. rewrite !list_elem_of_In. apply filter_In. Qed.

Lemma List_filter_sublist {A} (f : A -> bool) (l : list A) :
  List.filter f l `sublist_of` l.
Proof.
  induction l as [|x l IH]; simpl; [constructor|].
  destruct (f x); by constructor.
Qed.

Lemma List_filter_sublist_mono {A} (f g : A -> bool) (l : list A) :
  (forall x, x ∈ l -> f x = true -> g x = true) ->
  List.filter f l `sublist_of` List.filter g l.
Proof.
  induction l as [|x l IH]; intros Himpl; simpl; [done|].
  assert (List.filter f l `sublist_of` List.filter g l) as Hrest.
  { apply IH. intros y Hy. apply Himpl. by right. }
  destruct (f x) eqn:Hf.
  - rewrite (Himpl x) by (done || left). by constructor.
  - destruct (g x); [by constructor | done].
Qed.

Lemma List_filter_idemp {A} (f : A -> bool) (l : list A) :
  List.filter f (List.filter f l) = List.filter f l.
Proof.
  induction l as [|x l IH]; simpl; [done|].
  destruct (f x) eqn:Hf; simpl; [by rewrite Hf, IH | done].
Qed.

Lemma filteredLeagues_elem_of `{Js.Builtins} st L :
  L ∈ filteredLeagues st <->
  L ∈ leagues st /\ store_visible (searchTerm st) (selectedSport st) L.
Proof.
  unfold filteredLeagues, store_visible.
  destruct (Js.truthy (selectedSport st)) eqn:Hsport;
    destruct (Js.truthy_str (Js.trim (searchTerm st))) eqn:Hterm.
  - apply truthy_spec in Hsport as [sport [Hs Hne]].
    apply truthy_str_spec in Hterm.
    rewrite !elem_of_List_filter, matchesTerm_spec.
    unfold matchesSport. rewrite bool_decide_eq_true, Hs.
    split.
    + intros [[HL Hmatch] Heq]. auto.
    + intros [HL [[|[[= ->]|Heq]] [Htrim|Hmatch]]]; done.
  - apply truthy_spec in Hsport as [sport [Hs Hne]].
    apply truthy_str_false in Hterm.
    rewrite elem_of_List_filter.
    unfold matchesSport. rewrite bool_decide_eq_true, Hs.
    split.
    + intros [HL Heq]. auto.
    + intros [HL [[|[[= ->]|Heq]] _]]; done.
  - apply truthy_false_spec in Hsport.
    apply truthy_str_spec in Hterm.
    rewrite elem_of_List_filter, matchesTerm_spec.
    split.
    + intros [HL Hmatch]. destruct Hsport; auto.
    + intros [HL [_ [Htrim|Hmatch]]]; done.
  - apply truthy_false_spec in Hsport.
    apply truthy_str_false in Hterm.
    split.
    + intros HL. destruct Hsport; auto.
    + by intros [HL _].
Qed.

Lemma filteredLeagues_filter `{Js.Builtins} st :
  filteredLeagues st = List.filter (visible st) (leagues st).
Proof.
  unfold filteredLeagues, visible.
  destruct (Js.truthy_str (Js.trim (searchTerm st))), (Js.truthy (selectedSport st));
    simpl; induction (leagues st) as [|L l IH]; simpl; try done.
  - destruct (matchesTerm (Js.toLowerCase (searchTerm st)) L); simpl; [|done].
    destruct (matchesSport (selectedSport st) L); simpl; by rewrite IH.
  - rewrite andb_true_r.
    destruct (matchesTerm (Js.toLowerCase (searchTerm st)) L); by rewrite IH.
  - by rewrite <- IH.
Qed.

Lemma visible_spec `{Js.Builtins} st L :
  visible st L = true <-> store_visible (searchTerm st) (selectedSport st) L.
Proof.
  unfold visible, store_visible, matchesSport.
  rewrite andb_true_iff, !orb_true_iff, !negb_true_iff, matchesTerm_spec,
    truthy_false_spec, bool_decide_eq_true, truthy_str_false. tauto.
Qed.

Lemma filteredLeagues_length `{Js.Builtins} st :
  length (filteredLeagues st) <= length (leagues st).
Proof.
  rewrite filteredLeagues_filter. apply sublist_length, List_filter_sublist.
Qed.

Lemma set_add_elem_of x y elts :
  y ∈ Js.set_add x elts <-> y = x \/ y ∈ elts.
Proof.
  unfold Js.set_add. case_bool_decide as Hx.
  - split; [auto | by intros [->|]].
  - rewrite elem_of_app, list_elem_of_singleton. tauto.
Qed.

Lemma set_add_NoDup x elts : NoDup elts -> NoDup (Js.set_add x elts).
Proof.
  intros Hnd. unfold Js.set_add. case_bool_decide as Hx; [done|].
  apply NoDup_app. split_and!; [done | | apply NoDup_singleton].
  intros y Hy ->%list_elem_of_singleton. done.
Qed.

Lemma addSport_elem_of sports league sport :
  sport ∈ addSport sports league <->
  sport ∈ sports \/ (sport <> "" /\ strSport league = Some sport).
Proof.
  unfold addSport. destruct (strSport league) as [s|].
  - destruct (Js.truthy_str s) eqn:Hs.
    + apply truthy_str_spec in Hs. rewrite set_add_elem_of. split.
      * intros [->|]; auto.
      * intros [|[_ [= ->]]]; auto.
    + apply truthy_str_false in Hs as ->. split; [auto|].
      intros [|[Hne [= Heq]]]; [done | by subst].
  - split; [auto | by intros [|[_ ?]]].
Qed.

Lemma addSport_NoDup sports league : NoDup sports -> NoDup (addSport sports league).
Proof.
  intros Hnd. unfold addSport. destruct (strSport league) as [s|]; [|done].
  destruct (Js.truthy_str s); [by apply set_add_NoDup | done].
Qed.

Lemma foldl_addSport_elem_of ls sports sport :
  sport ∈ foldl addSport sports ls <-> sport ∈ sports \/ is_sport_of ls sport.
Proof.
  unfold is_sport_of. revert sports.
  induction ls as [|league ls IH]; intros sports; simpl.
  - split; [auto|]. intros [|[_ [L [HL _]]]]; [done | by apply elem_of_nil in HL].
  - rewrite IH, addSport_elem_of. split.
    + intros [[|[Hne Hs]] | [Hne [L [HL Hs]]]]; [auto | |].
      * right. split; [done|]. exists league. split; [left | done].
      * right. split; [done|]. exists L. split; [by right | done].
    + intros [| [Hne [L [HL Hs]]]]; [auto|].
      apply elem_of_cons in HL as [->|HL]; [auto|].
      right. eauto.
Qed.

Lemma foldl_addSport_NoDup ls sports :
  NoDup sports -> NoDup (foldl addSport sports ls).
Proof.
  revert sports. induction ls as [|league ls IH]; intros sports Hnd; simpl; [done|].
  by apply IH, addSport_NoDup.
Qed.

Lemma sort_Permutation `{Js.Builtins} l : Js.sort l ≡ₚ l.
Proof. apply merge_sort_Permutation. Qed.

Lemma StronglySorted_strict `{Js.Builtins} (l : list string) :
  NoDup l -> StronglySorted Js.code_le l -> StronglySorted (strict Js.code_le) l.
Proof.
  intros Hnd Hsorted. induction Hsorted as [|x l Hsorted IH Hall]; [constructor|].
  apply NoDup_cons in Hnd as [Hx Hnd]. constructor; [by apply IH|].
  rewrite Forall_forall in Hall |- *. intros y Hy. split; [by apply Hall|].
  intros Hyx. assert (x = y) as -> by (apply (anti_symm Js.code_le); auto).
  done.
Qed.

Lemma sort_ascending `{Js.Builtins} l : NoDup l -> ascending (Js.sort l).
Proof.
  intros Hnd. apply StronglySorted_strict.
  - by rewrite sort_Permutation.
  - apply StronglySorted_merge_sort; apply _.
Qed.

Lemma availableSports_elem_of `{Js.Builtins} st sport :
  sport ∈ availableSports st <-> is_sport_of (leagues st) sport.
Proof.
  unfold availableSports. rewrite sort_Permutation, foldl_addSport_elem_of.
  split; [intros [?%elem_of_nil|] | auto]; done.
Qed.

Lemma ascending_unique `{Js.Builtins} (l1 l2 : list string) :
  ascending l1 -> ascending l2 -> (forall x, x ∈ l1 <-> x ∈ l2) -> l1 = l2.
Proof.
  unfold ascending. intros H1. revert l2.
  induction H1 as [|x l1 Hs1 IH Hx]; intros l2 H2 Hsame.
  - destruct l2 as [|y l2]; [done|].
    assert (y ∈ @nil string) as ?%elem_of_nil by (apply Hsame; left). done.
  - destruct H2 as [|y l2 Hs2 Hy].
    + assert (x ∈ @nil string) as ?%elem_of_nil by (apply Hsame; left). done.
    + rewrite Forall_forall in Hx, Hy.
      assert (x = y) as ->.
      { assert (x ∈ y :: l2) as [->|Hxin]%elem_of_cons by (apply Hsame; left); [done|].
        assert (y ∈ x :: l1) as [->|Hyin]%elem_of_cons by (apply Hsame; left); [done|].
        destruct (Hx y Hyin) as [_ Hnot]. destruct (Hy x Hxin) as [Hle _]. done. }
      f_equal. apply IH; [done|]. intros z. split.
      * intros Hz. assert (z ∈ y :: l2) as [->|]%elem_of_cons by (apply Hsame; by right); [|done].
        destruct (Hx y Hz) as [Hle Hnot]. done.
      * intros Hz. assert (z ∈ y :: l1) as [->|]%elem_of_cons by (apply Hsame; by right); [|done].
        destruct (Hy y Hz) as [Hle Hnot]. done.
Qed.

(** ** The catalogue *)

(** C1, as the store implements it: a league is in [filteredLeagues]
    exactly when it is one of [leagues], the sport filter is [null] or
    empty or equal to the league's sport, and the search term is blank
    or occurs, lower-cased but not trimmed, in the lower-cased name or
    alternate name; a league without alternate name is matched on its
    name only.  [trim] and [toLowerCase] are those of JavaScript,
    whatever they do to a string. *)
Theorem filteredLeagues_visible `{Js.Builtins} st L :
  L ∈ filteredLeagues st <->
  L ∈ leagues st /\
  (selectedSport st = None \/ selectedSport st = Some "" \/ strSport L = selectedSport st) /\
  (Js.trim (searchTerm st) = "" \/
   (exists name, strLeague L = Some name /\
      substring_of (Js.toLowerCase (searchTerm st)) (Js.toLowerCase name)) \/
   (exists name, strLeagueAlternate L = Some name /\
      substring_of (Js.toLowerCase (searchTerm st)) (Js.toLowerCase name))).
Proof. apply filteredLeagues_elem_of. Qed.

(** C1 as worded fails twice.  With the term [" epl"] the trimmed term
    matches the alternate name of the Premier League, yet the league is
    filtered out, because the term is compared with its leading blank;
    with the sport filter [""] the worded condition excludes a soccer
    league, yet the league is listed, because an empty filter is
    falsy. *)
Lemma filteredLeagues_not_spec_visible :
  (spec_visible " epl" None premier_league /\
   premier_league ∉ filteredLeagues (sample_store " epl" None ∅)) /\
  (~ spec_visible "" (Some "") premier_league /\
   premier_league ∈ filteredLeagues (sample_store "" (Some "") ∅)).
Proof.
  split; split.
  - split; [by left|]. right. right. exists "EPL". split; [done|].
    by exists "", "".
  - vm_compute. by intros ?%elem_of_nil.
  - by intros [[|] _].
  - vm_compute. left.
Qed.

(** C6: [filteredLeagues] is a subsequence of [leagues]: it keeps the
    relative order, and each of its elements is an element of
    [leagues]. *)
Theorem filteredLeagues_subsequence `{Js.Builtins} st :
  filteredLeagues st `sublist_of` leagues st /\
  (forall L, L ∈ filteredLeagues st -> L ∈ leagues st).
Proof.
  assert (filteredLeagues st `sublist_of` leagues st) as Hsub.
  { rewrite filteredLeagues_filter. apply List_filter_sublist. }
  split; [done|]. intros L HL. by eapply elem_of_sublist.
Qed.

Lemma filteredLeagues_subsequence_witness :
  nba ∈ filteredLeagues (sample_store "" (Some "Basketball") ∅) /\
  nba ∈ leagues (sample_store "" (Some "Basketball") ∅).
Proof.
  assert (nba ∈ filteredLeagues (sample_store "" (Some "Basketball") ∅)) as Hin
    by (vm_compute; left).
  split; [exact Hin|].
  destruct (filteredLeagues_subsequence (sample_store "" (Some "Basketball") ∅)) as [_ Hsub].
  exact (Hsub nba Hin).
Defined.

(** C7: [availableSports] lists exactly the non-empty sport values that
    occur among the leagues, each once, in strictly ascending
    lexicographic order of their UTF-16 code units, and it depends on
    the store through [leagues] only. *)
Theorem availableSports_spec `{Js.Builtins} st :
  (forall sport, sport ∈ availableSports st <-> is_sport_of (leagues st) sport) /\
  NoDup (availableSports st) /\
  ascending (availableSports st) /\
  (forall st', leagues st' = leagues st -> availableSports st' = availableSports st).
Proof.
  split_and!.
  - apply availableSports_elem_of.
  - unfold availableSports. rewrite sort_Permutation.
    apply foldl_addSport_NoDup, NoDup_nil_2.
  - apply sort_ascending, foldl_addSport_NoDup, NoDup_nil_2.
  - unfold availableSports. by intros st' ->.
Qed.

Lemma availableSports_spec_witness :
  "Soccer" ∈ availableSports (sample_store "" None ∅) /\
  availableSports (sample_store "epl" (Some "Soccer") ∅) = availableSports (sample_store "" None ∅).
Proof.
  destruct (availableSports_spec (sample_store "" None ∅)) as (Hiff & _ & _ & Hpure).
  split.
  - apply Hiff. split; [discriminate|].
    exists premier_league. split; [left | reflexivity].
  - apply Hpure. reflexivity.
Defined.

(** ** Facts about the actions *)

Ltac run_action :=
  unfold fetchBadge, fetchLeagues, fetchFromAPI, toast_if_rate_limited,
    try_catch, try_finally, dollar_fetch, console_error, toast_add,
    badgeCache_get, badgeCache_set, set_leagues, set_loading, set_error,
    throw, fulfil, mbind, action_bind, bind;
  simpl.

(** A read of the cache is falsy when the key holds the empty string,
    or is neither a key of the cache nor the name of an inherited
    member. *)
Lemma get_falsy `{Js.Builtins} (cache : gmap string string) key :
  Js.truthy_value (Js.get cache key) = false <->
  cache !! key = Some "" \/ (cache !! key = None /\ Js.inherited key = false).
Proof.
  unfold Js.get. destruct (cache !! key) as [s|]; simpl.
  - rewrite truthy_str_false. split; [intros ->; by left | by intros [[= ->]|[? _]]].
  - destruct (Js.inherited key); simpl; split; try done; [by intros [|[_ ?]] | by right].
Qed.

Lemma get_truthy `{Js.Builtins} (cache : gmap string string) key :
  Js.truthy_value (Js.get cache key) = true <->
  (exists url, cache !! key = Some url /\ url <> "" /\ Js.get cache key = Some (Js.Str url)) \/
  (cache !! key = None /\ Js.inherited key = true /\ Js.get cache key = Some (Js.Member key)).
Proof.
  unfold Js.get. destruct (cache !! key) as [s|]; simpl.
  - rewrite truthy_str_spec. split.
    + intros Hne. left. eauto.
    + by intros [(url & [= <-] & Hne & _) | [? _]].
  - destruct (Js.inherited key); simpl; split; try done.
    + by right.
    + by intros [(? & ? & _) | (_ & ? & _)].
Qed.

Lemma get_own `{Js.Builtins} (cache : gmap string string) key url :
  cache !! key = Some url -> Js.get cache key = Some (Js.Str url).
Proof. unfold Js.get. by intros ->. Qed.

Lemma get_Str `{Js.Builtins} (cache : gmap string string) key url :
  Js.get cache key = Some (Js.Str url) -> cache !! key = Some url.
Proof.
  unfold Js.get. destruct (cache !! key) as [s|]; [by intros [= ->]|].
  by destruct (Js.inherited key).
Qed.

Lemma get_Member `{Js.Builtins} (cache : gmap string string) key name :
  Js.get cache key = Some (Js.Member name) ->
  cache !! key = None /\ Js.inherited key = true /\ name = key.
Proof.
  unfold Js.get. destruct (cache !! key) as [s|]; [done|].
  destruct (Js.inherited key); [by intros [= ->] | done].
Qed.

Lemma get_absent `{Js.Builtins} (cache : gmap string string) key :
  cache !! key = None -> Js.inherited key = false -> Js.get cache key = None.
Proof. unfold Js.get. by intros -> ->. Qed.

Lemma fetchBadge_hit `{Js.Builtins} fetcher leagueId st v :
  Js.get (badgeCache st) leagueId = Some v ->
  Js.truthy_value (Some v) = true ->
  fetchBadge fetcher leagueId st = (st, Js.Fulfilled (Some v)).
Proof. intros Hcached Htruthy. run_action. by rewrite Hcached, Htruthy. Qed.

Lemma fetchBadge_hit_own `{Js.Builtins} fetcher leagueId st url :
  badgeCache st !! leagueId = Some url -> url <> "" ->
  fetchBadge fetcher leagueId st = (st, Js.Fulfilled (Some (Js.Str url))).
Proof.
  intros Hcached Hne. apply fetchBadge_hit; [by apply get_own|].
  by apply truthy_str_spec.
Qed.

Lemma latest_lookup (seasons : list Season) latest :
  last seasons = Some latest ->
  bool_decide (0 < length seasons) = true /\
  seasons !! (length seasons - 1) = Some latest.
Proof.
  intros Hlast. rewrite last_lookup in Hlast. split.
  - apply bool_decide_eq_true. destruct seasons; [done | simpl; lia].
  - by rewrite Nat.sub_1_r.
Qed.

Lemma fetchBadge_miss_badge `{Js.Builtins} fetcher leagueId st seasons latest badgeUrl :
  Js.truthy_value (Js.get (badgeCache st) leagueId) = false ->
  fetcher leagueId = Js.Fulfilled (Some {| Api.seasons := Some seasons |}) ->
  last seasons = Some latest ->
  strBadge latest = Some badgeUrl -> badgeUrl <> "" ->
  (fetchBadge fetcher leagueId st).2 = Js.Fulfilled (Some (Js.Str badgeUrl)) /\
  badgeCache (fetchBadge fetcher leagueId st).1 = <[leagueId := badgeUrl]> (badgeCache st) /\
  requests (fetchBadge fetcher leagueId st).1 = requests st ++ [badge_request leagueId].
Proof.
  intros Hmiss Hfetch [Hlen Hlatest]%latest_lookup Hbadge Hne.
  apply truthy_str_spec in Hne.
  run_action. rewrite Hmiss, Hfetch. simpl.
  rewrite Hlen, Hlatest, Hbadge, Hne. done.
Qed.

Lemma fetchBadge_miss_no_badge `{Js.Builtins} fetcher leagueId st response :
  Js.truthy_value (Js.get (badgeCache st) leagueId) = false ->
  fetcher leagueId = Js.Fulfilled response ->
  (response ≫= Api.seasons = None \/
   response ≫= Api.seasons = Some [] \/
   exists seasons latest,
     response ≫= Api.seasons = Some seasons /\
     last seasons = Some latest /\ Js.truthy (strBadge latest) = false) ->
  (fetchBadge fetcher leagueId st).2 = Js.Fulfilled None /\
  badgeCache (fetchBadge fetcher leagueId st).1 = badgeCache st /\
  requests (fetchBadge fetcher leagueId st).1 = requests st ++ [badge_request leagueId].
Proof.
  intros Hmiss Hfetch Hnone. run_action. rewrite Hmiss, Hfetch. simpl.
  destruct Hnone as [Hnone | [Hnone | (seasons & latest & Hnone & [Hlen Hlatest]%latest_lookup & Hbadge)]];
    destruct response as [[[received|]]|]; simplify_eq/=; try done.
  rewrite Hlen, Hlatest. destruct (strBadge latest) as [badgeUrl|]; [|done].
  simpl in Hbadge. by rewrite Hbadge.
Qed.

Lemma fetchBadge_miss_rejected `{Js.Builtins} fetcher leagueId st err :
  Js.truthy_value (Js.get (badgeCache st) leagueId) = false ->
  fetcher leagueId = Js.Rejected err ->
  (fetchBadge fetcher leagueId st).2 =
    Js.Rejected (Js.new_Error (message_or "Failed to fetch badge" err)) /\
  badgeCache (fetchBadge fetcher leagueId st).1 = badgeCache st /\
  requests (fetchBadge fetcher leagueId st).1 = requests st ++ [badge_request leagueId].
Proof.
  intros Hmiss Hfetch. run_action. rewrite Hmiss, Hfetch. simpl.
  by destruct (Js.includes (message_or "Failed to fetch badge" err) "429").
Qed.

Lemma fetchBadge_miss_requests `{Js.Builtins} fetcher leagueId st :
  Js.truthy_value (Js.get (badgeCache st) leagueId) = false ->
  requests (fetchBadge fetcher leagueId st).1 = requests st ++ [badge_request leagueId].
Proof.
  intros Hmiss. run_action. rewrite Hmiss.
  destruct (fetcher leagueId) as [response|err]; simpl.
  - destruct response as [[[received|]]|]; simpl; [|done..].
    destruct (bool_decide (0 < length received)); [|done].
    destruct (received !! (length received - 1)) as [latestSeason|]; [|done].
    destruct (strBadge latestSeason) as [badgeUrl|]; [|done].
    by destruct (Js.truthy_str badgeUrl).
  - by destruct (Js.includes (message_or "Failed to fetch badge" err) "429").
Qed.

Lemma fetchLeagues_rejected err st :
  (fetchLeagues (Js.Rejected err) st).2 = Js.Fulfilled tt /\
  error (fetchLeagues (Js.Rejected err) st).1 = Some (message_or "Failed to fetch leagues" err) /\
  leagues (fetchLeagues (Js.Rejected err) st).1 = leagues st /\
  loading (fetchLeagues (Js.Rejected err) st).1 = false.
Proof.
  run_action.
  by destruct (Js.includes (message_or "Failed to fetch leagues" err) "429").
Qed.

Lemma fetchLeagues_fulfilled response st :
  (fetchLeagues (Js.Fulfilled response) st).2 = Js.Fulfilled tt /\
  error (fetchLeagues (Js.Fulfilled response) st).1 = None /\
  leagues (fetchLeagues (Js.Fulfilled response) st).1 = default [] (response ≫= Api.leagues) /\
  loading (fetchLeagues (Js.Fulfilled response) st).1 = false.
Proof.
  run_action. by destruct response as [[[received|]]|].
Qed.

(** ** The badge cache *)

(** C2, as the store implements it: when a read of the cache for the
    league is falsy (no entry and no inherited member of that name, or
    the empty string) and the request is rejected, [fetchBadge] rejects
    with a new plain [Error]; its message is the message of the reason
    when the reason is an [Error], and ["Failed to fetch badge"] when it
    is any other value.  Exactly one request has been sent, and the
    cache is as it was. *)
Theorem fetchBadge_rejection `{Js.Builtins} fetcher leagueId st err :
  (badgeCache st !! leagueId = Some "" \/
   (badgeCache st !! leagueId = None /\ Js.inherited leagueId = false)) ->
  fetcher leagueId = Js.Rejected err ->
  (fetchBadge fetcher leagueId st).2 =
    Js.Rejected (Js.ErrorObject "Error"
                   match err with
                   | Js.ErrorObject _ message => message
                   | Js.OtherValue _ => "Failed to fetch badge"
                   end) /\
  requests (fetchBadge fetcher leagueId st).1 = requests st ++ [badge_request leagueId] /\
  badgeCache (fetchBadge fetcher leagueId st).1 = badgeCache st.
Proof.
  intros Hmiss%get_falsy Hfetch.
  destruct (fetchBadge_miss_rejected fetcher leagueId st err) as (Hout & Hcache & Hreq);
    [done..|].
  by rewrite Hout, Hreq, Hcache.
Qed.

Lemma fetchBadge_rejection_witness :
  ((∅ : gmap string string) !! "1" = None /\ Js.inherited "1" = false) /\
  (fetchBadge (fun _ => Js.Rejected (Js.ErrorObject "FetchError" "429 Too Many Requests"))
              "1" (sample_store "" None ∅)).2 =
    Js.Rejected (Js.ErrorObject "Error" "429 Too Many Requests").
Proof.
  split; [split; reflexivity|].
  destruct (fetchBadge_rejection
              (fun _ => Js.Rejected (Js.ErrorObject "FetchError" "429 Too Many Requests"))
              "1" (sample_store "" None ∅)
              (Js.ErrorObject "FetchError" "429 Too Many Requests"))
    as (Hout & _); [right; split; reflexivity | reflexivity |].
  exact Hout.
Defined.

(** C2 as worded fails: the caller does not receive the reason of the
    rejection.  A reason that is not an [Error] is replaced by an
    [Error] with the fixed message, and an [Error] of another class
    comes back as a plain [Error] that only shares its message. *)
Lemma fetchBadge_rejection_not_unmodified :
  (fetchBadge (fun _ => Js.Rejected (Js.OtherValue "offline")) "1" (sample_store "" None ∅)).2 =
    Js.Rejected (Js.ErrorObject "Error" "Failed to fetch badge") /\
  (fetchBadge (fun _ => Js.Rejected (Js.OtherValue "offline")) "1" (sample_store "" None ∅)).2 <>
    Js.Rejected (Js.OtherValue "offline") /\
  (fetchBadge (fun _ => Js.Rejected (Js.ErrorObject "FetchError" "429 Too Many Requests"))
              "1" (sample_store "" None ∅)).2 <>
    Js.Rejected (Js.ErrorObject "FetchError" "429 Too Many Requests").
Proof. split_and!; [reflexivity | vm_compute; congruence | vm_compute; congruence]. Qed.

(** C3 fails for a league id that names a member the cache object
    inherits.  With the id ["constructor"] and an empty cache the read
    [badgeCache.value[leagueId]] yields the inherited member, which is
    truthy: [fetchBadge] returns it instead of the badge of the last
    season, sends no request and stores nothing. *)
Theorem fetchBadge_inherited_key_no_badge :
  (badgeCache (sample_store "" None ∅)) !! "constructor" = None /\
  fetchBadge (fun _ => seasons_with_badge) "constructor" (sample_store "" None ∅) =
    (sample_store "" None ∅, Js.Fulfilled (Some (Js.Member "constructor"))) /\
  (fetchBadge (fun _ => seasons_with_badge) "constructor" (sample_store "" None ∅)).2 <>
    Js.Fulfilled (Some (Js.Str "http://x/badge.png")) /\
  requests (fetchBadge (fun _ => seasons_with_badge) "constructor" (sample_store "" None ∅)).1 = [] /\
  badgeCache (fetchBadge (fun _ => seasons_with_badge) "constructor"
                         (sample_store "" None ∅)).1 !! "constructor" = None.
Proof. split_and!; [reflexivity | reflexivity | vm_compute; congruence | reflexivity..]. Qed.

(** C4, as the store implements it: when the cache holds a non-empty
    URL for the league, [fetchBadge] returns that URL and leaves the
    store untouched, whatever the fetcher is; no request is sent. *)
Theorem fetchBadge_cache_hit `{Js.Builtins} fetcher leagueId st url :
  badgeCache st !! leagueId = Some url ->
  url <> "" ->
  fetchBadge fetcher leagueId st = (st, Js.Fulfilled (Some (Js.Str url))) /\
  requests (fetchBadge fetcher leagueId st).1 = requests st.
Proof.
  intros Hcached Hne. rewrite (fetchBadge_hit_own fetcher leagueId st url) by done. done.
Qed.

Lemma fetchBadge_cache_hit_witness :
  ({[ "1" := "http://x/badge.png" ]} : gmap string string) !! "1" = Some "http://x/badge.png" /\
  fetchBadge (fun _ => Js.Rejected (Js.OtherValue "offline")) "1"
             (sample_store "" None {[ "1" := "http://x/badge.png" ]}) =
    (sample_store "" None {[ "1" := "http://x/badge.png" ]},
     Js.Fulfilled (Some (Js.Str "http://x/badge.png"))).
Proof.
  split; [reflexivity|].
  destruct (fetchBadge_cache_hit (fun _ => Js.Rejected (Js.OtherValue "offline")) "1"
              (sample_store "" None {[ "1" := "http://x/badge.png" ]}) "http://x/badge.png")
    as (Hout & _); [reflexivity | discriminate |].
  exact Hout.
Defined.

(** C4 as worded fails for an entry that is present with the empty
    string as its value: the request is sent and its result returned. *)
Lemma fetchBadge_empty_entry_fetches :
  ({[ "1" := "" ]} : gmap string string) !! "1" = Some "" /\
  (fetchBadge (fun _ => seasons_with_badge) "1" (sample_store "" None {[ "1" := "" ]})).2 =
    Js.Fulfilled (Some (Js.Str "http://x/badge.png")) /\
  requests (fetchBadge (fun _ => seasons_with_badge) "1" (sample_store "" None {[ "1" := "" ]})).1 =
    [badge_request "1"].
Proof. split_and!; reflexivity. Qed.

(** C5 fails for a league id that names a member the cache object
    inherits.  With the id ["constructor"], an empty cache and a
    request that yields no season, [fetchBadge] does not return
    [null]: it returns the inherited member; and no call for that id,
    the first or a later one, sends a request. *)
Theorem fetchBadge_inherited_key_not_null :
  (badgeCache (sample_store "" None ∅)) !! "constructor" = None /\
  (fetchBadge (fun _ => no_seasons) "constructor" (sample_store "" None ∅)).2 =
    Js.Fulfilled (Some (Js.Member "constructor")) /\
  (fetchBadge (fun _ => no_seasons) "constructor" (sample_store "" None ∅)).2 <>
    Js.Fulfilled None /\
  requests (fetchBadge (fun _ => no_seasons) "constructor"
              (fetchBadge (fun _ => no_seasons) "constructor" (sample_store "" None ∅)).1).1 = [].
Proof. split_and!; [reflexivity | reflexivity | vm_compute; congruence | reflexivity]. Qed.

(** C10 fails for a league id that names a member the cache object
    inherits: at the id ["constructor"] an entry with the empty string
    and no entry are told apart.  With the entry the request is sent,
    and a last season whose badge is the empty string gives [null];
    without the entry no request is sent, and the same fetcher gives
    the inherited member. *)
Theorem fetchBadge_inherited_key_unlike_empty :
  (requests (fetchBadge (fun _ => seasons_with_empty_badge) "constructor"
                        (sample_store "" None {[ "constructor" := "" ]})).1 =
     [badge_request "constructor"] /\
   (fetchBadge (fun _ => seasons_with_empty_badge) "constructor"
               (sample_store "" None {[ "constructor" := "" ]})).2 = Js.Fulfilled None) /\
  (requests (fetchBadge (fun _ => seasons_with_empty_badge) "constructor"
                        (sample_store "" None ∅)).1 = [] /\
   (fetchBadge (fun _ => seasons_with_empty_badge) "constructor" (sample_store "" None ∅)).2 =
     Js.Fulfilled (Some (Js.Member "constructor"))).
Proof. split; split; reflexivity. Qed.

(** ** Facts about filters that can throw *)

Lemma filter_Normal {A} (callback : A -> Js.completion bool)
    (test : A -> bool) (l : list A) :
  (forall x, x ∈ l -> callback x = Js.Normal (test x)) ->
  Js.filter callback l = Js.Normal (List.filter test l).
Proof.
  induction l as [|x l IH]; intros Hall; simpl; [done|].
  rewrite (Hall x) by left. rewrite IH by (intros y Hy; apply Hall; by right).
  done.
Qed.

Lemma filter_Abrupt {A} (callback : A -> Js.completion bool)
    (l : list A) (x : A) (err : Js.thrown) :
  x ∈ l -> callback x = Js.Abrupt err ->
  exists y err', y ∈ l /\ callback y = Js.Abrupt err' /\
                 Js.filter callback l = Js.Abrupt err'.
Proof.
  induction l as [|z l IH]; intros Hx Hthrow; [by apply elem_of_nil in Hx|].
  simpl. destruct (callback z) as [keep|err'] eqn:Hz.
  - apply elem_of_cons in Hx as [->|Hx]; [congruence|].
    destruct (IH Hx Hthrow) as (y & err' & Hy & Hcb & ->).
    exists y, err'. split; [by right | done].
  - exists z, err'. split; [left | done].
Qed.





(** ** Loading the catalogue *)

(** C9: however the request for the leagues settles, the promise of
    [fetchLeagues] is fulfilled and [loading] ends up [false].  When the
    request is rejected with an [Error], [error] holds the message of
    that [Error]; when it is rejected with any other value, [error]
    holds ["Failed to fetch leagues"]; either way [leagues] is what it
    was before the call. *)
Theorem fetchLeagues_never_rejects :
  (forall net st,
     (fetchLeagues net st).2 = Js.Fulfilled tt /\
     loading (fetchLeagues net st).1 = false) /\
  (forall name message st,
     error (fetchLeagues (Js.Rejected (Js.ErrorObject name message)) st).1 = Some message /\
     leagues (fetchLeagues (Js.Rejected (Js.ErrorObject name message)) st).1 = leagues st) /\
  (forall repr st,
     error (fetchLeagues (Js.Rejected (Js.OtherValue repr)) st).1 =
       Some "Failed to fetch leagues" /\
     leagues (fetchLeagues (Js.Rejected (Js.OtherValue repr)) st).1 = leagues st).
Proof.
  split_and!.
  - intros [response|err] st.
    + by destruct (fetchLeagues_fulfilled response st) as (? & _ & _ & ?).
    + by destruct (fetchLeagues_rejected err st) as (? & _ & _ & ?).
  - intros name message st.
    by destruct (fetchLeagues_rejected (Js.ErrorObject name message) st) as (_ & ? & ? & _).
  - intros repr st.
    by destruct (fetchLeagues_rejected (Js.OtherValue repr) st) as (_ & ? & ? & _).
Qed.




(** ** The scenarios of the specification *)

Example scenario_A :
  idLeague <$> filteredLeagues (sample_store "epl" None ∅) = ["1"].
Proof. reflexivity. Qed.

Example scenario_B :
  idLeague <$> filteredLeagues (sample_store "" (Some "Basketball") ∅) = ["2"] /\
  idLeague <$> filteredLeagues (sample_store "" None ∅) = ["1"; "2"].
Proof. split; reflexivity. Qed.

Example scenario_C :
  (fetchBadge (fun _ => seasons_with_badge) "1" (sample_store "" None ∅)).2 =
    Js.Fulfilled (Some (Js.Str "http://x/badge.png")) /\
  badgeCache (fetchBadge (fun _ => seasons_with_badge) "1" (sample_store "" None ∅)).1 !! "1" =
    Some "http://x/badge.png".
Proof. split; reflexivity. Qed.

Example scenario_D :
  (fetchBadge (fun _ => no_seasons) "2" (sample_store "" None ∅)).2 = Js.Fulfilled None /\
  badgeCache (fetchBadge (fun _ => no_seasons) "2" (sample_store "" None ∅)).1 !! "2" = None.
Proof. split; reflexivity. Qed.

Example availableSports_sample :
  availableSports (sample_store "" None ∅) = ["Basketball"; "Soccer"].
Proof. vm_compute. reflexivity. Qed.

Example fetchLeagues_rate_limited :
  toasts (fetchLeagues (Js.Rejected (Js.ErrorObject "FetchError" "429 Too Many Requests"))
                       (sample_store "" None ∅)).1 =
    [ {| title := "Rate limit exceeded";
         description := "Please wait a moment before trying again";
         color := "warning" |} ] /\
  error (fetchLeagues (Js.Rejected (Js.ErrorObject "FetchError" "429 Too Many Requests"))
                      (sample_store "" None ∅)).1 = Some "429 Too Many Requests".
Proof. split; reflexivity. Qed.

Example seasons_without_badge_sample :
  (fetchBadge (fun _ => seasons_without_badge) "1" (sample_store "" None ∅)).2 =
    Js.Fulfilled None.
Proof. reflexivity. Qed.

(** ** More about the badge cache *)

(** Every way a call of [fetchBadge] can go: answered from the cache
    object, or one request sent and then a badge found and stored, no
    badge found, or the request rejected.  The refs of the catalogue
    are never touched. *)
Lemma fetchBadge_cases `{Js.Builtins} fetcher leagueId st :
  (leagues (fetchBadge fetcher leagueId st).1 = leagues st /\
   loading (fetchBadge fetcher leagueId st).1 = loading st /\
   error (fetchBadge fetcher leagueId st).1 = error st /\
   searchTerm (fetchBadge fetcher leagueId st).1 = searchTerm st /\
   selectedSport (fetchBadge fetcher leagueId st).1 = selectedSport st) /\
  ((exists v,
       Js.get (badgeCache st) leagueId = Some v /\ Js.truthy_value (Some v) = true /\
       fetchBadge fetcher leagueId st = (st, Js.Fulfilled (Some v))) \/
   (Js.truthy_value (Js.get (badgeCache st) leagueId) = false /\
    requests (fetchBadge fetcher leagueId st).1 = requests st ++ [badge_request leagueId] /\
    ((exists url,
         url <> "" /\
         (fetchBadge fetcher leagueId st).2 = Js.Fulfilled (Some (Js.Str url)) /\
         badgeCache (fetchBadge fetcher leagueId st).1 = <[leagueId := url]> (badgeCache st) /\
         toasts (fetchBadge fetcher leagueId st).1 = toasts st /\
         exists response, fetcher leagueId = Js.Fulfilled response) \/
     ((fetchBadge fetcher leagueId st).2 = Js.Fulfilled None /\
      badgeCache (fetchBadge fetcher leagueId st).1 = badgeCache st /\
      toasts (fetchBadge fetcher leagueId st).1 = toasts st /\
      exists response, fetcher leagueId = Js.Fulfilled response) \/
     (exists err,
         fetcher leagueId = Js.Rejected err /\
         (fetchBadge fetcher leagueId st).2 =
           Js.Rejected (Js.new_Error (message_or "Failed to fetch badge" err)) /\
         badgeCache (fetchBadge fetcher leagueId st).1 = badgeCache st /\
         toasts (fetchBadge fetcher leagueId st).1 =
           if Js.includes (message_or "Failed to fetch badge" err) "429"
           then toasts st ++ [badge_rate_limit_toast] else toasts st)))).
Proof.
  destruct (Js.truthy_value (Js.get (badgeCache st) leagueId)) eqn:Hcached.
  - destruct (Js.get (badgeCache st) leagueId) as [v|] eqn:Hget; [|done].
    rewrite (fetchBadge_hit fetcher leagueId st v) by done.
    split; [done|]. left. by exists v.
  - run_action. rewrite Hcached.
    destruct (fetcher leagueId) as [response|err] eqn:Hfetch; simpl.
    + assert (exists r, Js.Fulfilled response = Js.Fulfilled r) as Hex by eauto.
      destruct response as [[[received|]]|]; simpl;
        [|split; [done|]; right; split_and!; [done..|]; right; left; done ..].
      destruct (bool_decide (0 < length received)) eqn:Hlen;
        [|split; [done|]; right; split_and!; [done..|]; right; left; done].
      apply bool_decide_eq_true in Hlen.
      destruct (received !! (length received - 1)) as [latestSeason|] eqn:Hlatest.
      * destruct (strBadge latestSeason) as [badgeUrl|];
          [|split; [done|]; right; split_and!; [done..|]; right; left; done].
        destruct (Js.truthy_str badgeUrl) eqn:Hbadge;
          [|split; [done|]; right; split_and!; [done..|]; right; left; done].
        apply truthy_str_spec in Hbadge.
        split; [done|]. right. split_and!; [done..|]. left. by exists badgeUrl.
      * apply lookup_ge_None in Hlatest. lia.
    + split; [by destruct (Js.includes (message_or "Failed to fetch badge" err) "429")|].
      right. split_and!;
        [done | by destruct (Js.includes (message_or "Failed to fetch badge" err) "429") |].
      right. right. exists err.
      by destruct (Js.includes (message_or "Failed to fetch badge" err) "429").
Qed.

Lemma fetchBadge_returned_url_is_cached_aux `{Js.Builtins} fetcher leagueId st url :
  (fetchBadge fetcher leagueId st).2 = Js.Fulfilled (Some (Js.Str url)) ->
  url <> "" /\ badgeCache (fetchBadge fetcher leagueId st).1 !! leagueId = Some url.
Proof.
  intros Hout.
  destruct (fetchBadge_cases fetcher leagueId st)
    as [_ [(v & Hcached & Htruthy & Heq) | (_ & _ & Hmiss)]].
  - rewrite Heq in Hout |- *. simpl in *. simplify_eq.
    split; [by apply truthy_str_spec | by apply get_Str].
  - destruct Hmiss as [(url' & Hne & Hout' & Hcache & _) | [(Hout' & _) | (err & _ & Hout' & _)]];
      rewrite Hout' in Hout; simplify_eq.
    split; [done|]. rewrite Hcache. apply lookup_insert_eq.
Qed.

(** X1: whatever the cache held before and however the request went,
    a URL returned by [fetchBadge] is non-empty and is afterwards the
    cached entry of the league, so that a repeated call returns it from
    the cache and leaves the store as it is. *)
Theorem fetchBadge_returned_url_is_cached `{Js.Builtins} fetcher leagueId st url :
  (fetchBadge fetcher leagueId st).2 = Js.Fulfilled (Some (Js.Str url)) ->
  url <> "" /\
  badgeCache (fetchBadge fetcher leagueId st).1 !! leagueId = Some url /\
  (forall fetcher',
     fetchBadge fetcher' leagueId (fetchBadge fetcher leagueId st).1 =
       ((fetchBadge fetcher leagueId st).1, Js.Fulfilled (Some (Js.Str url)))).
Proof.
  intros Hout.
  destruct (fetchBadge_returned_url_is_cached_aux fetcher leagueId st url Hout) as [Hne Hget].
  split_and!; [done..|]. intros fetcher'. by apply fetchBadge_hit_own.
Qed.

Lemma fetchBadge_returned_url_is_cached_witness :
  (fetchBadge (fun _ => seasons_with_badge) "1" (sample_store "" None {[ "1" := "" ]})).2 =
    Js.Fulfilled (Some (Js.Str "http://x/badge.png")) /\
  badgeCache (fetchBadge (fun _ => seasons_with_badge) "1"
                         (sample_store "" None {[ "1" := "" ]})).1 !! "1" =
    Some "http://x/badge.png".
Proof.
  split; [reflexivity|].
  destruct (fetchBadge_returned_url_is_cached (fun _ => seasons_with_badge) "1"
              (sample_store "" None {[ "1" := "" ]}) "http://x/badge.png")
    as (_ & Hget & _); [reflexivity|].
  exact Hget.
Defined.

(** X2: when [fetchBadge] does not return a value, because it returns
    [null] or because it rejects, the call has sent exactly one request
    and the cache is what it was. *)
Theorem fetchBadge_without_url_keeps_cache `{Js.Builtins} fetcher leagueId st :
  (fetchBadge fetcher leagueId st).2 = Js.Fulfilled None \/
  (exists err, (fetchBadge fetcher leagueId st).2 = Js.Rejected err) ->
  requests (fetchBadge fetcher leagueId st).1 = requests st ++ [badge_request leagueId] /\
  badgeCache (fetchBadge fetcher leagueId st).1 = badgeCache st.
Proof.
  intros Hout.
  destruct (fetchBadge_cases fetcher leagueId st)
    as [_ [(v & _ & _ & Heq) | (_ & Hreq & Hmiss)]].
  - rewrite Heq in Hout. simpl in Hout. by destruct Hout as [|[? ?]].
  - split; [done|].
    destruct Hmiss as [(url & _ & Hout' & _) | [(_ & Hcache & _) | (err & _ & _ & Hcache & _)]];
      [|done..].
    rewrite Hout' in Hout. by destruct Hout as [|[? ?]].
Qed.

Lemma fetchBadge_without_url_keeps_cache_witness :
  badgeCache (fetchBadge (fun _ => Js.Rejected (Js.OtherValue "offline")) "2"
                         (sample_store "" None {[ "1" := "http://x/badge.png" ]})).1 =
    {[ "1" := "http://x/badge.png" ]}.
Proof.
  destruct (fetchBadge_without_url_keeps_cache
              (fun _ => Js.Rejected (Js.OtherValue "offline")) "2"
              (sample_store "" None {[ "1" := "http://x/badge.png" ]}))
    as [_ Hcache]; [right; eexists; reflexivity|].
  exact Hcache.
Defined.

Lemma fetchBadge_entries_kept `{Js.Builtins} fetcher leagueId st :
  (forall other url,
     badgeCache st !! other = Some url -> url <> "" ->
     badgeCache (fetchBadge fetcher leagueId st).1 !! other = Some url) /\
  (forall other,
     other <> leagueId ->
     badgeCache (fetchBadge fetcher leagueId st).1 !! other = badgeCache st !! other).
Proof.
  destruct (fetchBadge_cases fetcher leagueId st)
    as [_ [(v & _ & _ & Heq) | (Hfalsy & _ & Hmiss)]].
  - by rewrite Heq.
  - destruct Hmiss as [(url & _ & _ & Hcache & _) | [(_ & Hcache & _) | (err & _ & _ & Hcache & _)]];
      rewrite Hcache; [|done..].
    split.
    + intros other url' Hother Hne.
      destruct (decide (leagueId = other)) as [->|Hdiff]; [|by rewrite lookup_insert_ne].
      apply get_falsy in Hfalsy as [Hempty | [Hnone _]]; congruence.
    + intros other Hdiff. by rewrite lookup_insert_ne.
Qed.

(** X3: [fetchBadge] never overwrites a cached URL and never touches
    the entry of another league: an entry with a non-empty value reads
    the same after the call, whichever league the call was for, and
    every entry but the one of the league asked for reads the same. *)
Theorem fetchBadge_keeps_entries `{Js.Builtins} fetcher leagueId st :
  (forall other url,
     badgeCache st !! other = Some url -> url <> "" ->
     badgeCache (fetchBadge fetcher leagueId st).1 !! other = Some url) /\
  (forall other,
     other <> leagueId ->
     badgeCache (fetchBadge fetcher leagueId st).1 !! other = badgeCache st !! other).
Proof. apply fetchBadge_entries_kept. Qed.

Lemma fetchBadge_keeps_entries_witness :
  badgeCache (fetchBadge (fun _ => seasons_with_badge) "2"
                         (sample_store "" None {[ "1" := "http://x/old.png" ]})).1 !! "1" =
    Some "http://x/old.png".
Proof.
  destruct (fetchBadge_keeps_entries (fun _ => seasons_with_badge) "2"
              (sample_store "" None {[ "1" := "http://x/old.png" ]})) as [Hkeep _].
  apply Hkeep; [reflexivity | discriminate].
Defined.

Lemma fetchBadge_clean `{Js.Builtins} fetcher leagueId st :
  cache_clean st -> cache_clean (fetchBadge fetcher leagueId st).1.
Proof.
  intros Hclean other.
  destruct (fetchBadge_cases fetcher leagueId st)
    as [_ [(v & _ & _ & Heq) | (_ & _ & Hmiss)]].
  - rewrite Heq. apply Hclean.
  - destruct Hmiss as [(url & Hne & _ & Hcache & _) | [(_ & Hcache & _) | (err & _ & _ & Hcache & _)]];
      rewrite Hcache; [|apply Hclean..].
    destruct (decide (leagueId = other)) as [->|Hdiff].
    + rewrite lookup_insert_eq. congruence.
    + rewrite lookup_insert_ne by done. apply Hclean.
Qed.

Lemma fetchBadges_snoc `{Js.Builtins} calls call st :
  fetchBadges (calls ++ [call]) st = (fetchBadge call.1 call.2 (fetchBadges calls st)).1.
Proof. unfold fetchBadges. by rewrite foldl_snoc. Qed.

(** X4: the store never writes the empty string into the badge cache.
    From a cache without empty values, the empty cache for one, any
    sequence of [fetchBadge] calls, with any fetchers and for any
    leagues, leads to a cache without empty values that still holds
    every entry it started with; and then presence is a hit: a league
    that has an entry is answered from the cache without a request. *)
Theorem fetchBadges_keep_cache_clean `{Js.Builtins} calls st :
  cache_clean st ->
  cache_clean (fetchBadges calls st) /\
  (forall leagueId url,
     badgeCache st !! leagueId = Some url ->
     badgeCache (fetchBadges calls st) !! leagueId = Some url) /\
  (forall fetcher leagueId url,
     badgeCache (fetchBadges calls st) !! leagueId = Some url ->
     fetchBadge fetcher leagueId (fetchBadges calls st) =
       (fetchBadges calls st, Js.Fulfilled (Some (Js.Str url)))).
Proof.
  intros Hclean.
  assert (cache_clean (fetchBadges calls st) /\
          forall leagueId url,
            badgeCache st !! leagueId = Some url ->
            badgeCache (fetchBadges calls st) !! leagueId = Some url) as [Hafter Hkept].
  { induction calls as [|call calls IH] using rev_ind; [done|].
    rewrite fetchBadges_snoc. destruct IH as [IHclean IHkept].
    split; [by apply fetchBadge_clean|].
    intros leagueId url Hget.
    apply fetchBadge_entries_kept; [by apply IHkept|].
    intros ->. by apply (Hclean leagueId). }
  split_and!; [done..|].
  intros fetcher leagueId url Hget. apply fetchBadge_hit_own; [done|].
  intros ->. by apply (Hafter leagueId).
Qed.

Lemma fetchBadges_keep_cache_clean_witness :
  fetchBadge (fun _ => Js.Rejected (Js.OtherValue "offline")) "1"
    (fetchBadges [(fun _ => no_seasons, "2"); (fun _ => seasons_with_badge, "1")]
                 (sample_store "" None ∅)) =
  (fetchBadges [(fun _ => no_seasons, "2"); (fun _ => seasons_with_badge, "1")]
               (sample_store "" None ∅),
   Js.Fulfilled (Some (Js.Str "http://x/badge.png"))).
Proof.
  destruct (fetchBadges_keep_cache_clean
              [(fun _ => no_seasons, "2"); (fun _ => seasons_with_badge, "1")]
              (sample_store "" None ∅)) as (_ & _ & Hhit).
  - intros leagueId. simpl. by rewrite lookup_empty.
  - apply Hhit. reflexivity.
Defined.

(** X5: [fetchBadge] leaves the catalogue alone: the list of leagues
    shown, the sports on offer, and what the page renders are the same
    after the call as before it. *)
Theorem fetchBadge_keeps_catalogue `{Js.Builtins} fetcher leagueId st :
  filteredLeagues (fetchBadge fetcher leagueId st).1 = filteredLeagues st /\
  availableSports (fetchBadge fetcher leagueId st).1 = availableSports st /\
  pageBody (fetchBadge fetcher leagueId st).1 = pageBody st /\
  resultsCount (fetchBadge fetcher leagueId st).1 = resultsCount st.
Proof.
  destruct (fetchBadge_cases fetcher leagueId st)
    as [(Hleagues & Hloading & Herror & Hterm & Hsport) _].
  assert (filteredLeagues (fetchBadge fetcher leagueId st).1 = filteredLeagues st) as Hfiltered.
  { unfold filteredLeagues. by rewrite Hleagues, Hterm, Hsport. }
  unfold availableSports, pageBody, resultsCount.
  by rewrite Hfiltered, Hleagues, Hloading, Herror.
Qed.

(** X6: the rate-limit toast of [fetchBadge].  One toast is added when
    the read of the cache is falsy and the request is rejected with an
    [Error] whose message contains [429]; no toast is added when the
    read of the cache is truthy, when the request is fulfilled, when
    the message lacks [429], or when the reason is not an [Error],
    whatever it is. *)
Theorem fetchBadge_toast `{Js.Builtins} fetcher leagueId st :
  (forall name message,
     Js.truthy_value (Js.get (badgeCache st) leagueId) = false ->
     fetcher leagueId = Js.Rejected (Js.ErrorObject name message) ->
     substring_of "429" message ->
     toasts (fetchBadge fetcher leagueId st).1 = toasts st ++ [badge_rate_limit_toast]) /\
  (Js.truthy_value (Js.get (badgeCache st) leagueId) = true \/
   (exists response, fetcher leagueId = Js.Fulfilled response) \/
   (exists name message,
       fetcher leagueId = Js.Rejected (Js.ErrorObject name message) /\
       ~ substring_of "429" message) \/
   (exists repr, fetcher leagueId = Js.Rejected (Js.OtherValue repr)) ->
   toasts (fetchBadge fetcher leagueId st).1 = toasts st).
Proof.
  destruct (fetchBadge_cases fetcher leagueId st)
    as [_ [(v & Hcached & Htruthy & Heq) | (Hfalsy & _ & Hmiss)]].
  - split.
    + intros name message Hmiss. rewrite Hcached in Hmiss. congruence.
    + intros _. by rewrite Heq.
  - destruct Hmiss as [(url & _ & _ & _ & Htoasts & response & Hfetch)
                      | [(_ & _ & Htoasts & response & Hfetch)
                      | (err & Hfetch & _ & _ & Htoasts)]].
    + split; [intros ? ? _ Hrej; congruence | done].
    + split; [intros ? ? _ Hrej; congruence | done].
    + rewrite Htoasts. split.
      * intros name message _ Hrej Hsub. rewrite Hfetch in Hrej. simplify_eq. simpl.
        apply includes_spec in Hsub. by rewrite Hsub.
      * intros [Hhit | [[response Hful] | [(name & message & Hrej & Hsub) | [repr Hrej]]]];
          [congruence | congruence | |].
        -- rewrite Hfetch in Hrej. simplify_eq. simpl.
           destruct (Js.includes message "429") eqn:Hinc; [|done].
           by apply includes_spec in Hinc.
        -- rewrite Hfetch in Hrej. by simplify_eq.
Qed.

Lemma fetchBadge_toast_witness :
  toasts (fetchBadge (fun _ => Js.Rejected (Js.ErrorObject "FetchError" "429 Too Many Requests"))
                     "1" (sample_store "" None ∅)).1 = [badge_rate_limit_toast] /\
  toasts (fetchBadge (fun _ => Js.Rejected (Js.OtherValue "429")) "1"
                     (sample_store "" None ∅)).1 = [] /\
  toasts (fetchBadge (fun _ => Js.Rejected (Js.ErrorObject "FetchError" "429 Too Many Requests"))
                     "constructor" (sample_store "" None ∅)).1 = [].
Proof.
  split_and!.
  - destruct (fetchBadge_toast
                (fun _ => Js.Rejected (Js.ErrorObject "FetchError" "429 Too Many Requests"))
                "1" (sample_store "" None ∅)) as [Hadd _].
    apply (Hadd "FetchError" "429 Too Many Requests"); [reflexivity | reflexivity |].
    exists "", " Too Many Requests". reflexivity.
  - destruct (fetchBadge_toast (fun _ => Js.Rejected (Js.OtherValue "429")) "1"
                (sample_store "" None ∅)) as [_ Hnone].
    apply Hnone. right. right. right. by exists "429".
  - destruct (fetchBadge_toast
                (fun _ => Js.Rejected (Js.ErrorObject "FetchError" "429 Too Many Requests"))
                "constructor" (sample_store "" None ∅)) as [_ Hnone].
    apply Hnone. left. reflexivity.
Defined.

(** X25: the badge of the last season is returned and cached.  When
    the league has no entry in the cache and its id does not name an
    inherited member, and the request yields a non-empty sequence of
    seasons whose last element carries a non-empty badge URL,
    [fetchBadge] returns that URL, having sent one request and stored
    the URL under the league id; the entry then reads back as that URL,
    and any later [fetchBadge] for the league returns it and leaves the
    store, its list of requests included, as it is. *)
Theorem fetchBadge_caches_latest `{Js.Builtins} fetcher leagueId st seasons latest badgeUrl :
  badgeCache st !! leagueId = None ->
  Js.inherited leagueId = false ->
  fetcher leagueId = Js.Fulfilled (Some {| Api.seasons := Some seasons |}) ->
  last seasons = Some latest ->
  strBadge latest = Some badgeUrl ->
  badgeUrl <> "" ->
  (fetchBadge fetcher leagueId st).2 = Js.Fulfilled (Some (Js.Str badgeUrl)) /\
  requests (fetchBadge fetcher leagueId st).1 = requests st ++ [badge_request leagueId] /\
  badgeCache (fetchBadge fetcher leagueId st).1 = <[leagueId := badgeUrl]> (badgeCache st) /\
  badgeCache (fetchBadge fetcher leagueId st).1 !! leagueId = Some badgeUrl /\
  (forall fetcher',
     fetchBadge fetcher' leagueId (fetchBadge fetcher leagueId st).1 =
       ((fetchBadge fetcher leagueId st).1, Js.Fulfilled (Some (Js.Str badgeUrl)))).
Proof.
  intros Hmiss Hown Hfetch Hlast Hbadge Hne.
  destruct (fetchBadge_miss_badge fetcher leagueId st seasons latest badgeUrl)
    as (Hout & Hcache & Hreq); [apply get_falsy; by right | done..|].
  assert (badgeCache (fetchBadge fetcher leagueId st).1 !! leagueId = Some badgeUrl) as Hget.
  { rewrite Hcache. apply lookup_insert_eq. }
  split_and!; [done..|].
  intros fetcher'. by apply fetchBadge_hit_own.
Qed.

Lemma fetchBadge_caches_latest_witness :
  ((∅ : gmap string string) !! "1" = None /\ Js.inherited "1" = false) /\
  (fetchBadge (fun _ => seasons_with_badge) "1" (sample_store "" None ∅)).2 =
    Js.Fulfilled (Some (Js.Str "http://x/badge.png")) /\
  badgeCache (fetchBadge (fun _ => seasons_with_badge) "1" (sample_store "" None ∅)).1 !! "1" =
    Some "http://x/badge.png".
Proof.
  split; [split; reflexivity|].
  destruct (fetchBadge_caches_latest (fun _ => seasons_with_badge) "1" (sample_store "" None ∅)
              [ {| strSeason := "2022"; strBadge := None |};
                {| strSeason := "2023"; strBadge := Some "http://x/badge.png" |} ]
              {| strSeason := "2023"; strBadge := Some "http://x/badge.png" |}
              "http://x/badge.png")
    as (Hout & _ & _ & Hget & _);
    [reflexivity | reflexivity | reflexivity | reflexivity | reflexivity | discriminate |].
  split; [exact Hout | exact Hget].
Defined.

(** X26: absence of a badge is not cached.  When the league has no
    entry in the cache and its id does not name an inherited member,
    and the request yields no season at all, or a last season without
    badge, [fetchBadge] returns [null] and leaves the cache as it was,
    so the entry still reads as absent, and a second [fetchBadge] for
    the league sends a request again, whatever its fetcher. *)
Theorem fetchBadge_no_badge_not_cached `{Js.Builtins} fetcher leagueId st seasons :
  badgeCache st !! leagueId = None ->
  Js.inherited leagueId = false ->
  fetcher leagueId = Js.Fulfilled (Some {| Api.seasons := Some seasons |}) ->
  (seasons = [] \/ exists latest, last seasons = Some latest /\ strBadge latest = None) ->
  (fetchBadge fetcher leagueId st).2 = Js.Fulfilled None /\
  badgeCache (fetchBadge fetcher leagueId st).1 = badgeCache st /\
  badgeCache (fetchBadge fetcher leagueId st).1 !! leagueId = None /\
  (forall fetcher',
     requests (fetchBadge fetcher' leagueId (fetchBadge fetcher leagueId st).1).1 =
       requests (fetchBadge fetcher leagueId st).1 ++ [badge_request leagueId]).
Proof.
  intros Hmiss Hown Hfetch Hnone.
  assert (Js.truthy_value (Js.get (badgeCache st) leagueId) = false) as Hfalsy
    by (apply get_falsy; by right).
  destruct (fetchBadge_miss_no_badge fetcher leagueId st
              (Some {| Api.seasons := Some seasons |}))
    as (Hout & Hcache & _); [done | done | |].
  { destruct Hnone as [-> | [latest [Hlast Hbadge]]]; [by right; left|].
    right. right. exists seasons, latest. by rewrite Hbadge. }
  split_and!; [done | done | by rewrite Hcache |].
  intros fetcher'. apply fetchBadge_miss_requests. by rewrite Hcache.
Qed.

Lemma fetchBadge_no_badge_not_cached_witness :
  ((fetchBadge (fun _ => no_seasons) "2" (sample_store "" None ∅)).2 = Js.Fulfilled None /\
   badgeCache (fetchBadge (fun _ => no_seasons) "2" (sample_store "" None ∅)).1 !! "2" = None) /\
  ((fetchBadge (fun _ => seasons_without_badge) "2" (sample_store "" None ∅)).2 =
     Js.Fulfilled None /\
   requests (fetchBadge (fun _ => seasons_with_badge) "2"
               (fetchBadge (fun _ => seasons_without_badge) "2" (sample_store "" None ∅)).1).1 =
     requests (fetchBadge (fun _ => seasons_without_badge) "2" (sample_store "" None ∅)).1
       ++ [badge_request "2"]).
Proof.
  split.
  - destruct (fetchBadge_no_badge_not_cached (fun _ => no_seasons) "2"
                (sample_store "" None ∅) [])
      as (Hout & _ & Hget & _); [reflexivity | reflexivity | reflexivity | by left |].
    split; [exact Hout | exact Hget].
  - destruct (fetchBadge_no_badge_not_cached (fun _ => seasons_without_badge) "2"
                (sample_store "" None ∅)
                [ {| strSeason := "2022"; strBadge := Some "http://x/old.png" |};
                  {| strSeason := "2023"; strBadge := None |} ])
      as (Hout & _ & _ & Hagain); [reflexivity | reflexivity | reflexivity | |].
    { right. exists {| strSeason := "2023"; strBadge := None |}. split; reflexivity. }
    split; [exact Hout | exact (Hagain (fun _ => seasons_with_badge))].
Defined.

(** X27: the empty string counts as absent on both sides of the badge
    cache.  A cached entry whose value is the empty string is a miss,
    for every league id: the request is sent.  When the read of the
    cache is falsy, a last season whose badge is the empty string has
    no badge: [fetchBadge] returns [null] and leaves the cache as it
    was. *)
Theorem fetchBadge_empty_string_is_absent `{Js.Builtins} :
  (forall fetcher leagueId st,
     badgeCache st !! leagueId = Some "" ->
     requests (fetchBadge fetcher leagueId st).1 = requests st ++ [badge_request leagueId]) /\
  (forall fetcher leagueId st seasons latest,
     (badgeCache st !! leagueId = Some "" \/
      (badgeCache st !! leagueId = None /\ Js.inherited leagueId = false)) ->
     fetcher leagueId = Js.Fulfilled (Some {| Api.seasons := Some seasons |}) ->
     last seasons = Some latest ->
     strBadge latest = Some "" ->
     (fetchBadge fetcher leagueId st).2 = Js.Fulfilled None /\
     badgeCache (fetchBadge fetcher leagueId st).1 = badgeCache st).
Proof.
  split.
  - intros fetcher leagueId st Hempty.
    apply fetchBadge_miss_requests, get_falsy. by left.
  - intros fetcher leagueId st seasons latest Hmiss%get_falsy Hfetch Hlast Hbadge.
    destruct (fetchBadge_miss_no_badge fetcher leagueId st
                (Some {| Api.seasons := Some seasons |}))
      as (Hout & Hcache & _); [done | done | | done].
    right. right. exists seasons, latest. by rewrite Hbadge.
Qed.

Lemma fetchBadge_empty_string_is_absent_witness :
  requests (fetchBadge (fun _ => seasons_with_badge) "1"
                       (sample_store "" None {[ "1" := "" ]})).1 = [badge_request "1"] /\
  (fetchBadge (fun _ => seasons_with_empty_badge) "1" (sample_store "" None ∅)).2 =
    Js.Fulfilled None /\
  badgeCache (fetchBadge (fun _ => seasons_with_empty_badge) "1" (sample_store "" None ∅)).1 = ∅.
Proof.
  destruct fetchBadge_empty_string_is_absent as [Hentry Hbadge].
  split.
  - apply (Hentry (fun _ => seasons_with_badge) "1" (sample_store "" None {[ "1" := "" ]})).
    reflexivity.
  - apply (Hbadge (fun _ => seasons_with_empty_badge) "1" (sample_store "" None ∅)
             [ {| strSeason := "2023"; strBadge := Some "" |} ]
             {| strSeason := "2023"; strBadge := Some "" |});
      [right; split; reflexivity | reflexivity..].
Defined.

(** X28: a league id that names an inherited member is always a hit.
    When the cache has no entry for the id and the cache object
    inherits a member of that name, [fetchBadge] returns that member,
    which is no string, and leaves the store as it is: no request is
    sent and nothing is stored, whatever the fetcher is, so that no
    badge is ever fetched for such an id. *)
Theorem fetchBadge_inherited_key `{Js.Builtins} fetcher leagueId st :
  badgeCache st !! leagueId = None ->
  Js.inherited leagueId = true ->
  fetchBadge fetcher leagueId st = (st, Js.Fulfilled (Some (Js.Member leagueId))) /\
  (forall url, (fetchBadge fetcher leagueId st).2 <> Js.Fulfilled (Some (Js.Str url))) /\
  (fetchBadge fetcher leagueId st).2 <> Js.Fulfilled None.
Proof.
  intros Hnone Hinherited.
  rewrite (fetchBadge_hit fetcher leagueId st (Js.Member leagueId));
    [done | | done].
  unfold Js.get. by rewrite Hnone, Hinherited.
Qed.

Lemma fetchBadge_inherited_key_witness :
  fetchBadge (fun _ => seasons_with_badge) "toString" (sample_store "" None ∅) =
    (sample_store "" None ∅, Js.Fulfilled (Some (Js.Member "toString"))).
Proof.
  destruct (fetchBadge_inherited_key (fun _ => seasons_with_badge) "toString"
              (sample_store "" None ∅)) as [Hout _]; [reflexivity | reflexivity |].
  exact Hout.
Defined.

(** ** More about loading the catalogue *)

(** Every way a call of [fetchLeagues] can go. *)
Lemma fetchLeagues_cases net st :
  ((fetchLeagues net st).2 = Js.Fulfilled tt /\
   loading (fetchLeagues net st).1 = false /\
   requests (fetchLeagues net st).1 = requests st ++ [leagues_request] /\
   badgeCache (fetchLeagues net st).1 = badgeCache st /\
   searchTerm (fetchLeagues net st).1 = searchTerm st /\
   selectedSport (fetchLeagues net st).1 = selectedSport st) /\
  match net with
  | Js.Fulfilled response =>
      leagues (fetchLeagues net st).1 = default [] (response ≫= Api.leagues) /\
      error (fetchLeagues net st).1 = None /\
      toasts (fetchLeagues net st).1 = toasts st /\
      console (fetchLeagues net st).1 = console st
  | Js.Rejected err =>
      leagues (fetchLeagues net st).1 = leagues st /\
      error (fetchLeagues net st).1 = Some (message_or "Failed to fetch leagues" err) /\
      toasts (fetchLeagues net st).1 =
        (if Js.includes (message_or "Failed to fetch leagues" err) "429"
         then toasts st ++ [leagues_rate_limit_toast] else toasts st) /\
      console (fetchLeagues net st).1 =
        console st ++ [("TheSportsDB API Error [all_leagues.php]:", err);
                       ("Error fetching leagues:", err)]
  end.
Proof.
  destruct net as [response|err]; run_action.
  - by destruct response as [[[received|]]|].
  - destruct (Js.includes (message_or "Failed to fetch leagues" err) "429"); simpl;
      by rewrite <- app_assoc.
Qed.

(** X7: a fulfilled [fetchLeagues] replaces the list wholesale by the
    leagues of the response, or by the empty list when the response or
    its [leagues] is [null], and clears [error], whatever list and error
    the store held; it sends the one request for [all_leagues.php],
    shows no toast, and leaves the filters and the badge cache alone. *)
Theorem fetchLeagues_fulfilled_replaces response st :
  leagues (fetchLeagues (Js.Fulfilled response) st).1 = default [] (response ≫= Api.leagues) /\
  error (fetchLeagues (Js.Fulfilled response) st).1 = None /\
  loading (fetchLeagues (Js.Fulfilled response) st).1 = false /\
  requests (fetchLeagues (Js.Fulfilled response) st).1 = requests st ++ [leagues_request] /\
  toasts (fetchLeagues (Js.Fulfilled response) st).1 = toasts st /\
  badgeCache (fetchLeagues (Js.Fulfilled response) st).1 = badgeCache st /\
  searchTerm (fetchLeagues (Js.Fulfilled response) st).1 = searchTerm st /\
  selectedSport (fetchLeagues (Js.Fulfilled response) st).1 = selectedSport st.
Proof.
  destruct (fetchLeagues_cases (Js.Fulfilled response) st)
    as [(_ & ? & ? & ? & ? & ?) (? & ? & ? & _)].
  done.
Qed.

(** X8: the rate-limit toast of [fetchLeagues].  One toast is added
    when the request is rejected with an [Error] whose message contains
    [429]; none is added when the request is fulfilled, when the message
    lacks [429], or when the reason is not an [Error]. *)
Theorem fetchLeagues_toast st :
  (forall name message,
     substring_of "429" message ->
     toasts (fetchLeagues (Js.Rejected (Js.ErrorObject name message)) st).1 =
       toasts st ++ [leagues_rate_limit_toast]) /\
  (forall name message,
     ~ substring_of "429" message ->
     toasts (fetchLeagues (Js.Rejected (Js.ErrorObject name message)) st).1 = toasts st) /\
  (forall repr, toasts (fetchLeagues (Js.Rejected (Js.OtherValue repr)) st).1 = toasts st) /\
  (forall response, toasts (fetchLeagues (Js.Fulfilled response) st).1 = toasts st).
Proof.
  split_and!.
  - intros name message Hsub%includes_spec.
    destruct (fetchLeagues_cases (Js.Rejected (Js.ErrorObject name message)) st)
      as [_ (_ & _ & Htoasts & _)].
    simpl in Htoasts. by rewrite Hsub in Htoasts.
  - intros name message Hsub.
    destruct (fetchLeagues_cases (Js.Rejected (Js.ErrorObject name message)) st)
      as [_ (_ & _ & Htoasts & _)].
    simpl in Htoasts. destruct (Js.includes message "429") eqn:Hinc; [|done].
    by apply includes_spec in Hinc.
  - intros repr.
    by destruct (fetchLeagues_cases (Js.Rejected (Js.OtherValue repr)) st)
      as [_ (_ & _ & Htoasts & _)].
  - intros response.
    by destruct (fetchLeagues_cases (Js.Fulfilled response) st) as [_ (_ & _ & Htoasts & _)].
Qed.

Lemma fetchLeagues_toast_witness :
  toasts (fetchLeagues (Js.Rejected (Js.ErrorObject "FetchError" "[GET] 429 Too Many Requests"))
                       (sample_store "" None ∅)).1 = [leagues_rate_limit_toast] /\
  toasts (fetchLeagues (Js.Rejected (Js.ErrorObject "FetchError" "500 Server Error"))
                       (sample_store "" None ∅)).1 = [].
Proof.
  destruct (fetchLeagues_toast (sample_store "" None ∅)) as (Hadd & Hnone & _).
  split.
  - apply (Hadd "FetchError" "[GET] 429 Too Many Requests").
    exists "[GET] ", " Too Many Requests". reflexivity.
  - apply (Hnone "FetchError" "500 Server Error").
    intros Hsub%includes_spec. discriminate Hsub.
Defined.

(** X9: [fetchFromAPI] is transparent.  It sends the one request for its
    endpoint and parameters and settles exactly the way the request
    does: a value is passed on, and a rejection is re-thrown with the
    very reason it came with, after one line on the console.  It touches
    nothing else. *)
Theorem fetchFromAPI_transparent {T} (net : Js.settled T) endpoint params st :
  (fetchFromAPI net endpoint params st).2 = net /\
  requests (fetchFromAPI net endpoint params st).1 =
    requests st ++ [{| endpoint := endpoint; params := params |}] /\
  console (fetchFromAPI net endpoint params st).1 =
    match net with
    | Js.Fulfilled _ => console st
    | Js.Rejected reason =>
        console st ++ [("TheSportsDB API Error [" +:+ endpoint +:+ "]:", reason)]
    end /\
  leagues (fetchFromAPI net endpoint params st).1 = leagues st /\
  error (fetchFromAPI net endpoint params st).1 = error st /\
  loading (fetchFromAPI net endpoint params st).1 = loading st /\
  badgeCache (fetchFromAPI net endpoint params st).1 = badgeCache st /\
  toasts (fetchFromAPI net endpoint params st).1 = toasts st.
Proof. destruct net as [value|reason]; run_action; done. Qed.

(** ** More about the string primitives *)

Lemma append_cons x (a b : string) : String x a +:+ b = String x (a +:+ b).
Proof. reflexivity. Qed.

Lemma append_assoc (a b c : string) : (a +:+ b) +:+ c = a +:+ (b +:+ c).
Proof. induction a as [|x a IH]; [done|]. by rewrite !append_cons, IH. Qed.

Lemma substring_of_trans a b c : substring_of a b -> substring_of b c -> substring_of a c.
Proof.
  intros (b1 & b2 & ->) (c1 & c2 & ->).
  exists (c1 +:+ b1), (b2 +:+ c2). by rewrite !append_assoc.
Qed.

Lemma trim_of_lower `{Js.Builtins} s s' :
  Js.toLowerCase s = Js.toLowerCase s' ->
  Js.truthy_str (Js.trim s) = Js.truthy_str (Js.trim s').
Proof.
  intros Hlower.
  destruct (Js.truthy_str (Js.trim s)) eqn:Hs, (Js.truthy_str (Js.trim s')) eqn:Hs'; try done.
  - apply truthy_str_spec in Hs. apply truthy_str_false in Hs'.
    destruct Hs. by apply (Js.toLowerCase_blank s').
  - apply truthy_str_spec in Hs'. apply truthy_str_false in Hs.
    destruct Hs'. by apply (Js.toLowerCase_blank s).
Qed.

(** ** More about the catalogue *)

(** X10: narrowing a filter narrows the list.  When the list of leagues
    is the same; the old search term was blank, or the new one is not
    blank and, lower-cased, contains the lower-cased old one; and the
    sport filter is the same or was off before; then the new
    [filteredLeagues] is a subsequence of the old one. *)
Theorem filteredLeagues_narrows `{Js.Builtins} st st' :
  leagues st' = leagues st ->
  Js.trim (searchTerm st) = "" \/
  (Js.trim (searchTerm st') <> "" /\
   substring_of (Js.toLowerCase (searchTerm st)) (Js.toLowerCase (searchTerm st'))) ->
  Js.truthy (selectedSport st) = false \/ selectedSport st' = selectedSport st ->
  filteredLeagues st' `sublist_of` filteredLeagues st.
Proof.
  intros Hleagues Hterm Hsport. rewrite !filteredLeagues_filter, Hleagues.
  apply List_filter_sublist_mono. intros L _. rewrite !visible_spec.
  intros [Hs Ht]. split.
  - destruct Hsport as [[-> | ->]%truthy_false_spec | <-]; auto.
  - destruct Hterm as [Hblank | [Hne Hsub']]; [by left|].
    destruct Ht as [Hblank | Hmatch]; [done|].
    right. unfold term_matches, matches_ignoring_case in *.
    destruct Hmatch as [(name & Hname & Hsub) | (name & Hname & Hsub)];
      [left | right]; exists name; (split; [done|]);
      by eapply substring_of_trans.
Qed.

Lemma filteredLeagues_narrows_witness :
  filteredLeagues (sample_store "Premier L" (Some "Soccer") ∅)
    `sublist_of` filteredLeagues (sample_store "r l" None ∅).
Proof.
  apply filteredLeagues_narrows; [reflexivity | | by left].
  right. split; [discriminate|].
  exists "premie", "". reflexivity.
Defined.

(** X11: the search ignores the case of the term.  Two stores with the
    same leagues and sport filter whose search terms are equal once
    lower-cased have the same [filteredLeagues]. *)
Theorem filteredLeagues_term_case `{Js.Builtins} st st' :
  leagues st' = leagues st ->
  selectedSport st' = selectedSport st ->
  Js.toLowerCase (searchTerm st') = Js.toLowerCase (searchTerm st) ->
  filteredLeagues st' = filteredLeagues st.
Proof.
  intros Hleagues Hsport Hterm. unfold filteredLeagues.
  by rewrite Hleagues, Hsport, Hterm, (trim_of_lower _ _ Hterm).
Qed.

Lemma filteredLeagues_term_case_witness :
  filteredLeagues (sample_store "EpL" None ∅) = filteredLeagues (sample_store "epl" None ∅).
Proof. apply filteredLeagues_term_case; reflexivity. Defined.

(** X12: every sport on offer has leagues to show.  When the selected
    sport is one of [availableSports] and the search term is blank,
    [filteredLeagues] is not empty, and it holds exactly the leagues of
    that sport. *)
Theorem available_sport_has_leagues `{Js.Builtins} st sport :
  sport ∈ availableSports st ->
  selectedSport st = Some sport ->
  Js.trim (searchTerm st) = "" ->
  filteredLeagues st <> [] /\
  (forall L, L ∈ filteredLeagues st <-> L ∈ leagues st /\ strSport L = Some sport).
Proof.
  intros [Hne (L0 & HL0 & Hsport0)]%availableSports_elem_of Hsel Hblank.
  assert (forall L, L ∈ filteredLeagues st <-> L ∈ leagues st /\ strSport L = Some sport)
    as Hiff.
  { intros L. rewrite filteredLeagues_elem_of. unfold store_visible. rewrite Hsel. split.
    - intros [HL [[|[[= ->]|]] _]]; done.
    - intros [HL HS]. auto. }
  split; [|done].
  intros Hnil. assert (L0 ∈ filteredLeagues st) as Hin by by apply Hiff.
  rewrite Hnil in Hin. by apply elem_of_nil in Hin.
Qed.

Lemma available_sport_has_leagues_witness :
  filteredLeagues (sample_store "  " (Some "Basketball") ∅) <> [].
Proof.
  destruct (available_sport_has_leagues (sample_store "  " (Some "Basketball") ∅) "Basketball")
    as [Hne _]; [| reflexivity | reflexivity | exact Hne].
  vm_compute. left.
Defined.

(** X13: [availableSports] does not depend on the order of the leagues
    or on how often a league occurs: two stores whose lists hold the
    same leagues offer the same list of sports. *)
Theorem availableSports_order_independent `{Js.Builtins} st st' :
  (forall L, L ∈ leagues st <-> L ∈ leagues st') ->
  availableSports st = availableSports st'.
Proof.
  intros Hsame. apply ascending_unique.
  - apply sort_ascending, foldl_addSport_NoDup, NoDup_nil_2.
  - apply sort_ascending, foldl_addSport_NoDup, NoDup_nil_2.
  - intros sport. rewrite !availableSports_elem_of. unfold is_sport_of.
    split; intros [Hne (L & HL & HS)]; (split; [done|]); exists L;
      (split; [by apply Hsame | done]).
Qed.

Lemma availableSports_order_independent_witness :
  availableSports (sample_store "" None ∅) =
  availableSports
    {| leagues := [nba; premier_league; nba]; loading := false; error := None;
       searchTerm := ""; selectedSport := None; badgeCache := ∅;
       toasts := []; console := []; requests := [] |}.
Proof.
  apply availableSports_order_independent. intros L. simpl.
  rewrite !elem_of_cons. tauto.
Defined.

(** X14: filtering is idempotent.  Loading the filtered list back into
    the store as its list of leagues, under the same filters, gives the
    same [filteredLeagues]. *)
Theorem filteredLeagues_idempotent `{Js.Builtins} st :
  filteredLeagues (set_leagues (filteredLeagues st) st).1 = filteredLeagues st.
Proof.
  rewrite (filteredLeagues_filter (set_leagues (filteredLeagues st) st).1).
  simpl. rewrite (filteredLeagues_filter st).
  apply List_filter_idemp.
Qed.

(** ** The page *)

Lemma shown_None v : shown v = None <-> Js.truthy v = false.
Proof. destruct v as [s|]; simpl; [by destruct (Js.truthy_str s) | done]. Qed.

Lemma shown_Some v s : shown v = Some s <-> v = Some s /\ s <> "".
Proof.
  destruct v as [s'|]; simpl; [|split; [done | by intros [? _]]].
  destruct (Js.truthy_str s') eqn:Hs.
  - apply truthy_str_spec in Hs. split; [by intros [= ->] | by intros [[= ->] _]].
  - apply truthy_str_false in Hs as ->.
    split; [done | by intros [[= <-] ?]].
Qed.

(** X15: what the page shows once [fetchLeagues] has settled.  It never
    shows the loading state.  After a fulfilled request it never shows
    the error alert, whatever error the store held before.  After a
    request rejected with an [Error] whose message is not empty it
    shows the error alert with that message, and after a request
    rejected with any other value it shows the alert with
    ["Failed to fetch leagues"]; an [Error] with an empty message
    leaves no alert. *)
Theorem pageBody_after_fetchLeagues `{Js.Builtins} st :
  (forall net, pageBody (fetchLeagues net st).1 <> LeaguesLoadingState) /\
  (forall response description,
     pageBody (fetchLeagues (Js.Fulfilled response) st).1 <> ErrorLoadingLeagues description) /\
  (forall name message,
     message <> "" ->
     pageBody (fetchLeagues (Js.Rejected (Js.ErrorObject name message)) st).1 =
       ErrorLoadingLeagues message) /\
  (forall repr,
     pageBody (fetchLeagues (Js.Rejected (Js.OtherValue repr)) st).1 =
       ErrorLoadingLeagues "Failed to fetch leagues") /\
  (forall name description,
     pageBody (fetchLeagues (Js.Rejected (Js.ErrorObject name "")) st).1 <>
       ErrorLoadingLeagues description).
Proof.
  split_and!.
  - intros net. destruct (fetchLeagues_cases net st) as [(_ & Hloading & _) _].
    unfold pageBody. rewrite Hloading. by repeat case_match.
  - intros response description.
    destruct (fetchLeagues_cases (Js.Fulfilled response) st)
      as [(_ & Hloading & _) (_ & Herror & _)].
    unfold pageBody. rewrite Hloading, Herror. simpl. by case_match.
  - intros name message Hne.
    destruct (fetchLeagues_cases (Js.Rejected (Js.ErrorObject name message)) st)
      as [(_ & Hloading & _) (_ & Herror & _)].
    unfold pageBody. rewrite Hloading, Herror. simpl.
    apply truthy_str_spec in Hne. by rewrite Hne.
  - intros repr.
    destruct (fetchLeagues_cases (Js.Rejected (Js.OtherValue repr)) st)
      as [(_ & Hloading & _) (_ & Herror & _)].
    unfold pageBody. by rewrite Hloading, Herror.
  - intros name description.
    destruct (fetchLeagues_cases (Js.Rejected (Js.ErrorObject name "")) st)
      as [(_ & Hloading & _) (_ & Herror & _)].
    unfold pageBody. rewrite Hloading, Herror. simpl. by case_match.
Qed.

Lemma pageBody_after_fetchLeagues_witness :
  pageBody (fetchLeagues (Js.Rejected (Js.ErrorObject "FetchError" "500 Server Error"))
                         (sample_store "" None ∅)).1 =
    ErrorLoadingLeagues "500 Server Error".
Proof.
  destruct (pageBody_after_fetchLeagues (sample_store "" None ∅)) as (_ & _ & Herr & _).
  apply (Herr "FetchError" "500 Server Error"). discriminate.
Defined.

(** X16: the results count goes with the list.  It is rendered exactly
    when the page shows the grid or the empty state; its filtered count
    never exceeds its total count; it is zero exactly when the empty
    state is shown; and a grid that is shown holds [filteredLeagues],
    which is then not empty. *)
Theorem resultsCount_consistent `{Js.Builtins} st :
  (is_Some (resultsCount st) <->
   pageBody st = LeaguesEmptyState \/ exists shown, pageBody st = LeaguesGrid shown) /\
  (forall filtered total,
     resultsCount st = Some (filtered, total) ->
     filtered <= total /\ (filtered = 0 <-> pageBody st = LeaguesEmptyState)) /\
  (forall shown,
     pageBody st = LeaguesGrid shown -> shown = filteredLeagues st /\ shown <> []).
Proof.
  pose proof (filteredLeagues_length st) as Hlen.
  unfold resultsCount, pageBody.
  destruct (loading st); simpl.
  { split_and!; [|done..]. split; [by intros [? ?] | by intros [|[? ?]]]. }
  destruct (shown (error st)) as [description|] eqn:Herror.
  { apply shown_Some in Herror as [-> Hne%truthy_str_spec]. simpl. rewrite Hne. simpl.
    split_and!; [|done..]. split; [by intros [? ?] | by intros [|[? ?]]]. }
  apply shown_None in Herror. rewrite Herror. simpl.
  destruct (length (filteredLeagues st) =? 0) eqn:Hzero.
  - apply Nat.eqb_eq in Hzero. split_and!.
    + split; [by left | eauto].
    + intros filtered total [= <- <-]. split; [exact Hlen | by split].
    + done.
  - apply Nat.eqb_neq in Hzero. split_and!.
    + split; [right; eauto | eauto].
    + intros filtered total [= <- <-]. split; [exact Hlen | by split].
    + intros shown [= <-]. split; [done|]. intros Hnil. by rewrite Hnil in Hzero.
Qed.

Lemma resultsCount_consistent_witness :
  resultsCount (sample_store "epl" None ∅) = Some (1, 2) /\ 1 <= 2.
Proof.
  split; [reflexivity|].
  destruct (resultsCount_consistent (sample_store "epl" None ∅)) as (_ & Hcount & _).
  destruct (Hcount 1 2) as [Hle _]; [reflexivity | exact Hle].
Defined.

(** ** The league card and its modal *)

Lemma went_out_spec st st' :
  went_out st st' = false <-> length (requests st') = length (requests st).
Proof. unfold went_out. by rewrite negb_false_iff, Nat.eqb_eq. Qed.

Lemma handleCardClick_eq `{Js.Builtins} fetcher league m card st :
  handleCardClick fetcher league m card st =
    ({| showModal :=
          if went_out st (fetchBadge fetcher (idLeague league) st).1
          then negb (closed m) else true;
        badgeUrl := match (fetchBadge fetcher (idLeague league) st).2 with
                    | Js.Fulfilled url => url
                    | Js.Rejected _ => None
                    end;
        badgeLoading := false;
        badgeError := match (fetchBadge fetcher (idLeague league) st).2 with
                      | Js.Fulfilled _ => None
                      | Js.Rejected err => Some (message_or "Failed to load badge" err)
                      end;
        isHovered :=
          if went_out st (fetchBadge fetcher (idLeague league) st).1
          then default (isHovered card) (hovered m) else isHovered card |},
     (fetchBadge fetcher (idLeague league) st).1, Js.Fulfilled tt).
Proof.
  unfold handleCardClick.
  destruct (fetchBadge fetcher (idLeague league) st) as [st1 [url|err]]; simpl;
    destruct (went_out st st1); simpl; by destruct (closed m).
Qed.

Lemma fetchBadge_rejects_with_Error `{Js.Builtins} fetcher leagueId st reason :
  (fetchBadge fetcher leagueId st).2 = Js.Rejected reason ->
  exists err,
    fetcher leagueId = Js.Rejected err /\
    reason = Js.new_Error (message_or "Failed to fetch badge" err).
Proof.
  intros Hout.
  destruct (fetchBadge_cases fetcher leagueId st)
    as [_ [(v & _ & _ & Heq) | (_ & _ & Hmiss)]].
  - rewrite Heq in Hout. discriminate.
  - destruct Hmiss as [(url & _ & Hout' & _) | [(Hout' & _) | (err & Hfetch & Hout' & _)]];
      rewrite Hout' in Hout; simplify_eq.
    by exists err.
Qed.

(** A value that [fetchBadge] returns is truthy, and a repeated call
    returns it without a request. *)
Lemma fetchBadge_returned_value `{Js.Builtins} fetcher leagueId st v :
  (fetchBadge fetcher leagueId st).2 = Js.Fulfilled (Some v) ->
  Js.truthy_value (Some v) = true /\
  forall fetcher',
    fetchBadge fetcher' leagueId (fetchBadge fetcher leagueId st).1 =
      ((fetchBadge fetcher leagueId st).1, Js.Fulfilled (Some v)).
Proof.
  intros Hout.
  destruct (fetchBadge_cases fetcher leagueId st)
    as [_ [(v' & Hcached & Htruthy & Heq) | (_ & _ & Hmiss)]].
  - rewrite Heq in Hout |- *. simpl in *. simplify_eq.
    split; [done|]. intros fetcher'. by apply fetchBadge_hit.
  - destruct Hmiss as [(url & Hne & Hout' & Hcache & _) | [(Hout' & _) | (err & _ & Hout' & _)]];
      rewrite Hout' in Hout; simplify_eq.
    split; [by apply truthy_str_spec|].
    intros fetcher'. apply fetchBadge_hit_own; [|done].
    rewrite Hcache. apply lookup_insert_eq.
Qed.

(** X17: a click on a league card always settles well.  The promise of
    [handleCardClick] is fulfilled and the modal is no longer loading,
    whatever the card showed before; the modal is open unless it was
    closed while a request was pending.  The card ends in one of four
    states: a non-empty badge URL that is also the cached entry of the
    league, and no error; for a league id that names an inherited
    member and has no entry, that member in place of a URL, no error,
    and the store as it was; neither URL nor error; or no URL and the
    error message, which is the message of the reason of the rejection
    when that is an [Error] and the text ["Failed to fetch badge"] of
    the store when it is not, never the text ["Failed to load badge"]
    of the card itself. *)
Theorem handleCardClick_outcome `{Js.Builtins} fetcher league m card st :
  (handleCardClick fetcher league m card st).2 = Js.Fulfilled tt /\
  (closed m = false \/
   requests (fetchBadge fetcher (idLeague league) st).1 = requests st ->
   showModal (handleCardClick fetcher league m card st).1.1 = true) /\
  badgeLoading (handleCardClick fetcher league m card st).1.1 = false /\
  (handleCardClick fetcher league m card st).1.2 = (fetchBadge fetcher (idLeague league) st).1 /\
  ((exists url,
       url <> "" /\
       badgeUrl (handleCardClick fetcher league m card st).1.1 = Some (Js.Str url) /\
       badgeError (handleCardClick fetcher league m card st).1.1 = None /\
       badgeCache (handleCardClick fetcher league m card st).1.2 !! idLeague league = Some url) \/
   (badgeUrl (handleCardClick fetcher league m card st).1.1 =
      Some (Js.Member (idLeague league)) /\
    badgeError (handleCardClick fetcher league m card st).1.1 = None /\
    badgeCache st !! idLeague league = None /\
    Js.inherited (idLeague league) = true /\
    (handleCardClick fetcher league m card st).1.2 = st) \/
   (badgeUrl (handleCardClick fetcher league m card st).1.1 = None /\
    badgeError (handleCardClick fetcher league m card st).1.1 = None /\
    (fetchBadge fetcher (idLeague league) st).2 = Js.Fulfilled None) \/
   (exists err,
       fetcher (idLeague league) = Js.Rejected err /\
       badgeUrl (handleCardClick fetcher league m card st).1.1 = None /\
       badgeError (handleCardClick fetcher league m card st).1.1 =
         Some match err with
              | Js.ErrorObject _ message => message
              | Js.OtherValue _ => "Failed to fetch badge"
              end)).
Proof.
  rewrite handleCardClick_eq. simpl. split_and!; [done | | done | done |].
  { intros [Hopen | Hsame].
    - rewrite Hopen. by case_match.
    - assert (went_out st (fetchBadge fetcher (idLeague league) st).1 = false) as ->; [|done].
      apply went_out_spec. by rewrite Hsame. }
  destruct ((fetchBadge fetcher (idLeague league) st).2) as [[[url|key]|]|reason] eqn:Hout.
  - left. exists url.
    destruct (fetchBadge_returned_url_is_cached_aux fetcher (idLeague league) st url Hout)
      as [Hne Hget].
    done.
  - right. left.
    destruct (fetchBadge_cases fetcher (idLeague league) st)
      as [_ [(v & Hcached & Htruthy & Heq) | (_ & _ & Hmiss)]].
    + rewrite Heq in Hout |- *. simpl in *. simplify_eq.
      by apply get_Member in Hcached as (Hnone & Hinherited & ->).
    + destruct Hmiss as [(url & _ & Hout' & _) | [(Hout' & _) | (err & _ & Hout' & _)]];
        rewrite Hout' in Hout; simplify_eq.
  - right. right. left. done.
  - right. right. right.
    apply fetchBadge_rejects_with_Error in Hout as (err & Hfetch & ->).
    exists err. by destruct err.
Qed.

Lemma handleCardClick_outcome_witness :
  showModal (handleCardClick (fun _ => seasons_with_badge) premier_league undisturbed
                             fresh_card (sample_store "" None ∅)).1.1 = true /\
  showModal (handleCardClick (fun _ => seasons_with_badge) premier_league closing
                             fresh_card (sample_store "" None ∅)).1.1 = false.
Proof.
  split; [|reflexivity].
  destruct (handleCardClick_outcome (fun _ => seasons_with_badge) premier_league undisturbed
              fresh_card (sample_store "" None ∅)) as (_ & Hopen & _).
  apply Hopen. by left.
Defined.

Ltac iff_by_cases :=
  intros; split; intros; destruct_or?; destruct_and?; simplify_eq; eauto.

(** X18: what the badge modal shows after a click.  It never shows the
    loading skeleton.  It shows the image of a URL exactly when
    [fetchBadge] returned that URL.  It shows the failure alert with a
    message exactly when [fetchBadge] rejected with that message and the
    message is not empty.  It shows "no badge available" when
    [fetchBadge] returned [null], and also when it rejected with an
    empty message. *)
Theorem cardModal_after_click `{Js.Builtins} fetcher league m card st :
  cardModal (handleCardClick fetcher league m card st).1.1 <> LoadingBadge /\
  (forall url,
     cardModal (handleCardClick fetcher league m card st).1.1 = BadgeImage url <->
     (fetchBadge fetcher (idLeague league) st).2 = Js.Fulfilled (Some url)) /\
  (forall message,
     cardModal (handleCardClick fetcher league m card st).1.1 = FailedToLoadBadge message <->
     (fetchBadge fetcher (idLeague league) st).2 = Js.Rejected (Js.new_Error message) /\
     message <> "") /\
  (cardModal (handleCardClick fetcher league m card st).1.1 = NoBadgeAvailable <->
   (fetchBadge fetcher (idLeague league) st).2 = Js.Fulfilled None \/
   (fetchBadge fetcher (idLeague league) st).2 = Js.Rejected (Js.new_Error "")).
Proof.
  rewrite handleCardClick_eq. unfold cardModal, BadgeModal, Js.new_Error. simpl.
  destruct ((fetchBadge fetcher (idLeague league) st).2) as [[v|]|reason] eqn:Hout.
  - destruct (fetchBadge_returned_value fetcher (idLeague league) st v Hout) as [Htruthy _].
    destruct v as [url|key]; simpl in *; rewrite ?Htruthy;
      (split_and!; [done | iff_by_cases..]).
  - simpl. split_and!; [done | iff_by_cases..].
  - apply fetchBadge_rejects_with_Error in Hout as (err & _ & ->). simpl.
    destruct (Js.truthy_str (message_or "Failed to fetch badge" err)) eqn:Hmsg.
    + apply truthy_str_spec in Hmsg. split_and!; [done | iff_by_cases..].
    + apply truthy_str_false in Hmsg. rewrite Hmsg.
      split_and!; [done | iff_by_cases..].
Qed.

Lemma cardModal_after_click_witness :
  cardModal (handleCardClick (fun _ => seasons_with_badge) premier_league undisturbed fresh_card
                             (sample_store "" None ∅)).1.1 =
    BadgeImage (Js.Str "http://x/badge.png") /\
  cardModal (handleCardClick (fun _ => Js.Rejected (Js.OtherValue "offline")) premier_league
                             closing fresh_card (sample_store "" None ∅)).1.1 =
    FailedToLoadBadge "Failed to fetch badge".
Proof.
  split.
  - apply (cardModal_after_click (fun _ => seasons_with_badge) premier_league undisturbed
             fresh_card (sample_store "" None ∅)).
    reflexivity.
  - apply (cardModal_after_click (fun _ => Js.Rejected (Js.OtherValue "offline"))
             premier_league closing fresh_card (sample_store "" None ∅)).
    split; [reflexivity | discriminate].
Defined.

(** X19: a second click needs no request.  Once a click has left a
    badge URL on the card, any later click on the card of the same
    league, whatever the fetcher would answer, whatever the card shows
    by then and whatever else goes on, leaves the store as it is,
    requests included, and ends with the modal open, the same URL on
    the card and no error. *)
Theorem second_click_uses_cache `{Js.Builtins} fetcher fetcher' league m m' card card' st url :
  badgeUrl (handleCardClick fetcher league m card st).1.1 = Some url ->
  handleCardClick fetcher' league m' card' (handleCardClick fetcher league m card st).1.2 =
    ({| showModal := true; badgeUrl := Some url; badgeLoading := false;
        badgeError := None; isHovered := isHovered card' |},
     (handleCardClick fetcher league m card st).1.2, Js.Fulfilled tt).
Proof.
  rewrite (handleCardClick_eq fetcher). simpl. intros Hurl.
  assert ((fetchBadge fetcher (idLeague league) st).2 = Js.Fulfilled (Some url)) as Hout.
  { by destruct ((fetchBadge fetcher (idLeague league) st).2) as [[url'|]|reason];
      simplify_eq/=. }
  destruct (fetchBadge_returned_value fetcher (idLeague league) st url Hout)
    as [Htruthy Hagain].
  rewrite handleCardClick_eq, (Hagain fetcher'). simpl.
  assert (went_out (fetchBadge fetcher (idLeague league) st).1
                   (fetchBadge fetcher (idLeague league) st).1 = false) as ->; [|done].
  by apply went_out_spec.
Qed.

Lemma second_click_uses_cache_witness :
  requests
    (handleCardClick (fun _ => Js.Rejected (Js.OtherValue "offline")) premier_league closing
       fresh_card
       (handleCardClick (fun _ => seasons_with_badge) premier_league undisturbed fresh_card
                        (sample_store "" None ∅)).1.2).1.2 =
  [badge_request "1"].
Proof.
  rewrite (second_click_uses_cache (fun _ => seasons_with_badge)
             (fun _ => Js.Rejected (Js.OtherValue "offline"))
             premier_league undisturbed closing fresh_card fresh_card (sample_store "" None ∅)
             (Js.Str "http://x/badge.png")); reflexivity.
Defined.

(** ** The composables beside the store *)

(** X20: [searchLeagues] of [useLeagues] throws on a league without
    name.  It completes normally when every league has a name, and then
    keeps, in order, the leagues whose lower-cased name or alternate
    name contains the lower-cased query; when some league has no name it
    throws a [TypeError], whatever the query is. *)
Theorem searchLeagues_spec `{Js.Builtins} leagues query :
  (Forall (fun L => is_Some (strLeague L)) leagues ->
   UseLeagues.searchLeagues leagues query =
     Js.Normal (List.filter (matchesTerm (Js.toLowerCase query)) leagues)) /\
  (forall L, L ∈ leagues -> strLeague L = None ->
             exists message,
               UseLeagues.searchLeagues leagues query =
                 Js.Abrupt (Js.ErrorObject "TypeError" message)).
Proof.
  split.
  - intros Hnamed. apply filter_Normal. intros L HL.
    rewrite Forall_forall in Hnamed. destruct (Hnamed L HL) as [name Hname].
    unfold matchesTerm. by rewrite Hname.
  - intros L HL Hname.
    destruct (filter_Abrupt
                (fun league =>
                   match UseLeagues.toLowerCase_of (strLeague league) with
                   | Js.Abrupt err => Js.Abrupt err
                   | Js.Normal lowerName =>
                       Js.Normal
                         (Js.truthy_bool
                            (Js.or_else
                               (Some (Js.includes lowerName (Js.toLowerCase query)))
                               ((fun name => Js.includes (Js.toLowerCase name)
                                                         (Js.toLowerCase query))
                                  <$> strLeagueAlternate league)))
                   end)
                leagues L (Js.ErrorObject "TypeError" "Cannot read properties of null") HL)
      as (y & err' & _ & Hcb & Hfilter).
    { by rewrite Hname. }
    unfold UseLeagues.searchLeagues. rewrite Hfilter.
    destruct (strLeague y); simpl in Hcb; simplify_eq. eauto.
Qed.

Lemma searchLeagues_spec_witness :
  UseLeagues.searchLeagues [premier_league; nba] "EPL" = Js.Normal [premier_league] /\
  exists message,
    UseLeagues.searchLeagues [premier_league; nameless] "EPL" =
      Js.Abrupt (Js.ErrorObject "TypeError" message).
Proof.
  destruct (searchLeagues_spec [premier_league; nba] "EPL") as [Hnormal _].
  destruct (searchLeagues_spec [premier_league; nameless] "EPL") as [_ Hthrow].
  split.
  - rewrite Hnormal; [reflexivity|].
    repeat constructor; eexists; reflexivity.
  - apply (Hthrow nameless); [right; left | reflexivity].
Defined.

(** X21: the composable and the store search alike.  For a store whose
    leagues all have a name, whose search term is not blank and whose
    sport filter is off, [searchLeagues] of the composable, given the
    leagues and the term of the store, completes with
    [filteredLeagues]. *)
Theorem searchLeagues_agrees_with_store `{Js.Builtins} st :
  Forall (fun L => is_Some (strLeague L)) (leagues st) ->
  Js.trim (searchTerm st) <> "" ->
  Js.truthy (selectedSport st) = false ->
  UseLeagues.searchLeagues (leagues st) (searchTerm st) =
    Js.Normal (filteredLeagues st).
Proof.
  intros Hnamed Hblank%truthy_str_spec Hsport.
  assert (UseLeagues.searchLeagues (leagues st) (searchTerm st) =
          Js.Normal (List.filter (matchesTerm (Js.toLowerCase (searchTerm st)))
                                 (leagues st))) as ->.
  { apply filter_Normal. intros L HL.
    rewrite Forall_forall in Hnamed. destruct (Hnamed L HL) as [name Hname].
    unfold matchesTerm. by rewrite Hname. }
  unfold filteredLeagues. by rewrite Hblank, Hsport.
Qed.

Lemma searchLeagues_agrees_with_store_witness :
  UseLeagues.searchLeagues [premier_league; nba] "nb" =
    Js.Normal (filteredLeagues (sample_store "nb" None ∅)).
Proof.
  apply (searchLeagues_agrees_with_store (sample_store "nb" None ∅));
    [repeat constructor; eexists; reflexivity | discriminate | reflexivity].
Defined.

(** X22: [filterBySport] of [useLeagues] compares sports without regard
    to case and throws on a league without sport.  When every league has
    a sport it completes with the leagues whose sport equals the given
    one once both are lower-cased, which include every league the sport
    filter of the store lets pass; when some league has no sport it
    throws a [TypeError]. *)
Theorem filterBySport_spec `{Js.Builtins} leagues sport :
  (Forall (fun L => is_Some (strSport L)) leagues ->
   exists kept,
     UseLeagues.filterBySport leagues sport = Js.Normal kept /\
     kept `sublist_of` leagues /\
     (forall L, L ∈ kept <->
                L ∈ leagues /\ exists s, strSport L = Some s /\ same_ignoring_case s sport) /\
     List.filter (matchesSport (Some sport)) leagues `sublist_of` kept) /\
  (forall L, L ∈ leagues -> strSport L = None ->
             exists message,
               UseLeagues.filterBySport leagues sport =
                 Js.Abrupt (Js.ErrorObject "TypeError" message)).
Proof.
  split.
  - intros Hsports. rewrite Forall_forall in Hsports.
    exists (List.filter
              (fun L => match strSport L with
                        | Some s => String.eqb (Js.toLowerCase s) (Js.toLowerCase sport)
                        | None => false
                        end) leagues).
    split_and!.
    + apply filter_Normal. intros L HL.
      destruct (Hsports L HL) as [s Hs]. by rewrite Hs.
    + apply List_filter_sublist.
    + intros L. rewrite elem_of_List_filter. unfold same_ignoring_case. split.
      * intros [HL Htest]. split; [done|].
        destruct (strSport L) as [s|]; [|done].
        exists s. split; [done|]. by apply String.eqb_eq.
      * intros [HL (s & Hs & Hsame)]. split; [done|]. rewrite Hs. by apply String.eqb_eq.
    + apply List_filter_sublist_mono. intros L _. unfold matchesSport.
      intros ->%bool_decide_eq_true. apply String.eqb_refl.
  - intros L HL Hsport.
    destruct (filter_Abrupt
                (fun league =>
                   match UseLeagues.toLowerCase_of (strSport league) with
                   | Js.Abrupt err => Js.Abrupt err
                   | Js.Normal lowerSport =>
                       Js.Normal (String.eqb lowerSport (Js.toLowerCase sport))
                   end)
                leagues L (Js.ErrorObject "TypeError" "Cannot read properties of null") HL)
      as (y & err' & _ & Hcb & Hfilter).
    { by rewrite Hsport. }
    unfold UseLeagues.filterBySport. rewrite Hfilter.
    destruct (strSport y); simpl in Hcb; simplify_eq. eauto.
Qed.

Lemma filterBySport_spec_witness :
  UseLeagues.filterBySport [premier_league; nba] "SOCCER" = Js.Normal [premier_league] /\
  exists message,
    UseLeagues.filterBySport [premier_league; nameless] "Soccer" =
      Js.Abrupt (Js.ErrorObject "TypeError" message).
Proof.
  destruct (filterBySport_spec [premier_league; nameless] "Soccer") as [_ Hthrow].
  split; [reflexivity|].
  apply (Hthrow nameless); [right; left | reflexivity].
Defined.

(** X23: [fetchBadge] of [useLeagueBadge] never rejects and never
    caches.  Each call sends one request and leaves the badge cache and
    the refs of the store alone.  A fulfilled request gives the seasons
    of the response, none when they are [null], together with the badge
    of the first of them; a rejected request, or a [null] response,
    gives no badge and no seasons, after a line on the console. *)
Theorem composable_fetchBadge_spec net leagueId st :
  (UseLeagueBadge.fetchBadge net leagueId st).2 =
    Js.Fulfilled
      match net with
      | Js.Fulfilled (Some response) =>
          {| UseLeagueBadge.badge := head (default [] (Api.seasons response)) ≫= strBadge;
             UseLeagueBadge.seasons := default [] (Api.seasons response) |}
      | _ => {| UseLeagueBadge.badge := None; UseLeagueBadge.seasons := [] |}
      end /\
  requests (UseLeagueBadge.fetchBadge net leagueId st).1 =
    requests st ++ [badge_request leagueId] /\
  badgeCache (UseLeagueBadge.fetchBadge net leagueId st).1 = badgeCache st /\
  leagues (UseLeagueBadge.fetchBadge net leagueId st).1 = leagues st /\
  error (UseLeagueBadge.fetchBadge net leagueId st).1 = error st /\
  loading (UseLeagueBadge.fetchBadge net leagueId st).1 = loading st /\
  toasts (UseLeagueBadge.fetchBadge net leagueId st).1 = toasts st /\
  length (console (UseLeagueBadge.fetchBadge net leagueId st).1) =
    match net with
    | Js.Fulfilled (Some _) => length (console st)
    | Js.Fulfilled None => S (length (console st))
    | Js.Rejected _ => S (S (length (console st)))
    end.
Proof.
  unfold UseLeagueBadge.fetchBadge, UseLeagueBadge.seasons_of, getLeagueBadge.
  destruct net as [[response|]|err]; run_action; rewrite ?length_app; simpl.
  - split_and!; try done. by destruct (default [] (Api.seasons response)).
  - split_and!; try done. lia.
  - split_and!; try done. lia.
Qed.

(** X24: [getLatestSeason] of [useLeagueBadge] never rejects, and what
    it calls the latest season is the first one of the response.  Each
    call sends one request and leaves the badge cache alone; it returns
    the first season when the request is fulfilled with seasons, and
    [null] when there are none, when the response is [null], or when
    the request is rejected. *)
Theorem composable_getLatestSeason_spec net leagueId st :
  (UseLeagueBadge.getLatestSeason net leagueId st).2 =
    Js.Fulfilled
      match net with
      | Js.Fulfilled (Some response) => Api.seasons response ≫= head
      | _ => None
      end /\
  requests (UseLeagueBadge.getLatestSeason net leagueId st).1 =
    requests st ++ [badge_request leagueId] /\
  badgeCache (UseLeagueBadge.getLatestSeason net leagueId st).1 = badgeCache st.
Proof.
  unfold UseLeagueBadge.getLatestSeason, UseLeagueBadge.seasons_of, getLeagueBadge.
  destruct net as [[response|]|err]; run_action; [|done..].
  split_and!; [|done..]. destruct (Api.seasons response) as [[|first rest]|]; done.
Qed.
